(** * Verification of bokehjs math text layout (core/graphics + models/text/math_text)

    Shallow embedding of the graphics-box hierarchy ([GraphicsBox],
    [TextBox], [ImageTextBox], [BaseExpo], [GraphicsContainer]) and of the
    asynchronous math-to-image pipeline of [MathTextView]. *)

From Stdlib Require Import List String Ascii NArith ZArith QArith Qminmax Qabs Bool Lia.
Import ListNotations.
Open Scope Q_scope.

(* ------------------------------------------------------------------ *)
(** ** JavaScript strings *)

(** A JS string is a sequence of UTF-16 code units; a regular expression
    without the [u] flag also works on code units. *)
Definition jsstring := list N.

(** Literal helper: an ASCII string as code units. *)
Fixpoint js (s : string) : jsstring :=
  match s with
  | EmptyString => []
  | String c r => N_of_ascii c :: js r
  end.

Definition cu_newline : N := 10%N.
(** U+2212 MINUS SIGN *)
Definition cu_minus_sign : N := 8722%N.

(** [text.includes(c)] for a one-unit needle. *)
Definition includes_unit (s : jsstring) (c : N) : bool :=
  existsb (N.eqb c) s.

(** [text.split("\n")]: never empty. *)
Fixpoint split_lines (s : jsstring) : list jsstring :=
  match s with
  | [] => [[]]
  | c :: r =>
      match split_lines r with
      | [] => [[c]]
      | l :: ls => if N.eqb c cu_newline then [] :: l :: ls else (c :: l) :: ls
      end
  end.

(* ------------------------------------------------------------------ *)
(** ** Text height metrics *)

Inductive TextHeightMetric :=
  | THx | THcap | THascent | THx_descent | THcap_descent | THascent_descent.

Definition TextHeightMetric_eqb (a b : TextHeightMetric) : bool :=
  match a, b with
  | THx, THx | THcap, THcap | THascent, THascent
  | THx_descent, THx_descent | THcap_descent, THcap_descent
  | THascent_descent, THascent_descent => true
  | _, _ => false
  end.

(** [is_math_like], local to [TextBox.infer_text_height]. The source walks
    [new Set(text)] (distinct code points); the predicate accepts only BMP,
    non-surrogate units, so testing every code unit gives the same answer. *)
Definition math_like_unit (c : N) : bool :=
  ((N.leb (N_of_ascii "0") c && N.leb c (N_of_ascii "9"))
   || N.eqb c (N_of_ascii ",") || N.eqb c (N_of_ascii ".")
   || N.eqb c (N_of_ascii "+") || N.eqb c (N_of_ascii "-")
   || N.eqb c cu_minus_sign || N.eqb c (N_of_ascii "e"))%bool.

Definition is_math_like (text : jsstring) : bool :=
  forallb math_like_unit text.

(** [TextBox.infer_text_height] *)
Definition TextBox_infer_text_height (text : jsstring) : TextHeightMetric :=
  if includes_unit text cu_newline then THascent_descent
  else if is_math_like text then THcap
  else THascent_descent.

(* ------------------------------------------------------------------ *)
(** ** core/graphics: data model *)

Inductive XAnchor := XNum (q : Q) | XLeft | XCenter | XRight.
Inductive YAnchor := YNum (q : Q) | YTop | YCenter | YBaseline | YBottom.

(** [Position]; an absent anchor is [None]. *)
Record Position := mkPosition {
  sx : Q; sy : Q;
  x_anchor : option XAnchor;
  y_anchor : option YAnchor }.

Inductive Align := AAuto | ALeft | ACenter | ARight | AJustify.

Record Size := mkSize { width : Q; height : Q }.

Record FontMetrics := mkFontMetrics {
  fm_height : Q; fm_ascent : Q; fm_descent : Q;
  fm_x_height : Q; fm_cap_height : Q }.

Record ImageProperties := mkImageProperties {
  ip_width : Q; ip_height : Q; v_align : Q }.

(** Fields of the abstract [GraphicsBox]. [width]/[height] are the optional
    percentage scale factors ([{value, unit: "%"}]); [angle] is [undefined]
    ([None]) until set. *)
Record Common := mkCommon {
  c_position : Position;
  c_angle : option Q;
  c_width : option Q;
  c_height : option Q;
  c_font_size_scale : Q;
  c_text_height_metric : option TextHeightMetric;
  c_align : Align;
  c_base_font_size : Q;
  c_x_anchor : XAnchor;
  c_y_anchor : YAnchor }.

(** Field initialisers of [GraphicsBox]. *)
Definition default_common : Common :=
  {| c_position := mkPosition 0 0 None None;
     c_angle := None; c_width := None; c_height := None;
     c_font_size_scale := 1; c_text_height_metric := None;
     c_align := ALeft; c_base_font_size := 13;
     c_x_anchor := XLeft; c_y_anchor := YCenter |}.

(** Fields of [TextBox]. The constructor sets only [text]; [color], [font]
    and [line_height] are set by the [visuals] setter, before any use. *)
Record TextFields := mkTextFields {
  text : jsstring;
  color : string;
  font : string;
  line_height : Q;
  visual_align : XAnchor }.

Definition new_text_fields (t : jsstring) : TextFields :=
  {| text := t; color := ""; font := ""; line_height := 1;
     visual_align := XLeft |}.

(** The closed set of box kinds. An [ImageTextBox] holds its image handle
    together with its [image_properties]: [load_image] assigns both in one
    synchronous step. *)
#[warnings="-register-all"]
Inductive gbox :=
  | TextBox (c : Common) (t : TextFields)
  | ImageTextBox (c : Common) (t : TextFields) (image : option (nat * ImageProperties))
  | BaseExpo (c : Common) (base expo : gbox)
  | GraphicsContainer (c : Common) (items : list gbox).

Definition common_of (b : gbox) : Common :=
  match b with
  | TextBox c _ | ImageTextBox c _ _ | BaseExpo c _ _ | GraphicsContainer c _ => c
  end.

Definition with_common (b : gbox) (c : Common) : gbox :=
  match b with
  | TextBox _ t => TextBox c t
  | ImageTextBox _ t i => ImageTextBox c t i
  | BaseExpo _ x y => BaseExpo c x y
  | GraphicsContainer _ l => GraphicsContainer c l
  end.

Definition set_c_position (c : Common) (p : Position) : Common :=
  {| c_position := p; c_angle := c_angle c; c_width := c_width c;
     c_height := c_height c; c_font_size_scale := c_font_size_scale c;
     c_text_height_metric := c_text_height_metric c; c_align := c_align c;
     c_base_font_size := c_base_font_size c; c_x_anchor := c_x_anchor c;
     c_y_anchor := c_y_anchor c |}.

Definition set_c_text_height_metric (c : Common) (m : option TextHeightMetric) : Common :=
  {| c_position := c_position c; c_angle := c_angle c; c_width := c_width c;
     c_height := c_height c; c_font_size_scale := c_font_size_scale c;
     c_text_height_metric := m; c_align := c_align c;
     c_base_font_size := c_base_font_size c; c_x_anchor := c_x_anchor c;
     c_y_anchor := c_y_anchor c |}.

Definition set_c_font_size_scale (c : Common) (s : Q) : Common :=
  {| c_position := c_position c; c_angle := c_angle c; c_width := c_width c;
     c_height := c_height c; c_font_size_scale := s;
     c_text_height_metric := c_text_height_metric c; c_align := c_align c;
     c_base_font_size := c_base_font_size c; c_x_anchor := c_x_anchor c;
     c_y_anchor := c_y_anchor c |}.

Definition set_c_anchors (c : Common) (xa : XAnchor) (ya : YAnchor) : Common :=
  {| c_position := c_position c; c_angle := c_angle c; c_width := c_width c;
     c_height := c_height c; c_font_size_scale := c_font_size_scale c;
     c_text_height_metric := c_text_height_metric c; c_align := c_align c;
     c_base_font_size := c_base_font_size c; c_x_anchor := xa;
     c_y_anchor := ya |}.

(** Text visual values ([visuals.Text["Values"]]) read by the setters. *)
Inductive Baseline := BTop | BMiddle | BBottom | BAlphabetic | BHanging | BIdeographic.

Record TextVisuals := mkTextVisuals {
  tv_color : string; tv_alpha : Q;
  tv_font_style : string; tv_font_size : string; tv_font : string;
  tv_line_height : Q; tv_align : XAnchor; tv_baseline : Baseline }.

(** External services consumed by the boxes: font metrics and text width
    measurement, [Math.cos]/[Math.sin], CSS font-size parsing, number
    formatting in a template literal and [color2css]. *)
Record Services := mkServices {
  font_metrics : string -> FontMetrics;
  text_width : jsstring -> string -> Q;
  math_cos : Q -> Q;
  math_sin : Q -> Q;
  parse_css_font_size : string -> option (Q * string);
  number_to_string : Q -> string;
  color2css : string -> Q -> string }.

(* ------------------------------------------------------------------ *)
(** ** core/graphics: measurement *)

Section BoxModel.
Variable sv : Services.

Definition Q_of_nat (n : nat) : Q := inject_Z (Z.of_nat n).

(** [max] of core/util/array on a non-empty array. *)
Definition max_nonempty (x : Q) (xs : list Q) : Q := fold_left Qmax xs x.

(** [a < b] on numbers. *)
Definition Qltb (a b : Q) : bool := negb (Qle_bool b a).

(** [GraphicsBox.infer_text_height] and its overrides. *)
Fixpoint infer_text_height (b : gbox) : TextHeightMetric :=
  match b with
  | TextBox _ t | ImageTextBox _ t _ => TextBox_infer_text_height (text t)
  | BaseExpo _ base _ => infer_text_height base
  | GraphicsContainer _ _ => THascent_descent
  end.

(** [TextBox._text_line]: [{height, ascent, descent}]. *)
Definition text_line (metric : TextHeightMetric) (fm : FontMetrics) : Q * Q * Q :=
  let ascent := match metric with
                | THx | THx_descent => fm_x_height fm
                | THcap | THcap_descent => fm_cap_height fm
                | THascent | THascent_descent => fm_ascent fm
                end in
  let descent := match metric with
                 | THx | THcap | THascent => 0
                 | _ => fm_descent fm
                 end in
  (ascent + descent, ascent, descent).

(** [this.width?.unit == "%" ? this.width.value : 1] *)
Definition pct_scale (o : option Q) : Q :=
  match o with Some v => v | None => 1 end.

(** [TextBox._size] *)
Definition TextBox__size (c : Common) (t : TextFields) : Size :=
  let fmetrics := font_metrics sv (font t) in
  let line_spacing := (line_height t - 1) * fm_height fmetrics in
  let empty := match text t with [] => true | _ => false end in
  let lines := split_lines (text t) in
  let nlines := Q_of_nat (List.length lines) in
  let widths := map (fun line => text_width sv line (font t)) lines in
  let metric := match c_text_height_metric c with
                | Some m => m
                | None => TextBox_infer_text_height (text t)
                end in
  let '(tl_height, _, _) := text_line metric fmetrics in
  let text_height := tl_height * nlines in
  let w_scale := pct_scale (c_width c) in
  let h_scale := pct_scale (c_height c) in
  let w := match widths with [] => 0 | w0 :: ws => max_nonempty w0 ws end * w_scale in
  let h := if empty then 0
           else (text_height + line_spacing * (nlines - 1)) * h_scale in
  mkSize w h.

(** [ImageTextBox._size] *)
Definition ImageTextBox__size (c : Common) (t : TextFields)
    (image : option (nat * ImageProperties)) : Size :=
  match image with
  | None => mkSize 0 0
  | Some (_, props) =>
      let metrics := font_metrics sv (font t) in
      let h := if Qltb (ip_height props) (fm_height metrics)
               then fm_height metrics else ip_height props in
      mkSize (ip_width props * pct_scale (c_width c)) (h * pct_scale (c_height c))
  end.

(** [GraphicsBox.size()]: the rotation-aware size, from [_size()]. *)
Definition rotated_size (angle : option Q) (s : Size) : Size :=
  match angle with
  | None => s
  | Some a =>
      if Qeq_bool a 0 then s
      else
        let c := math_cos sv (Qabs a) in
        let sn := math_sin sv (Qabs a) in
        mkSize (Qabs (width s * c + height s * sn)) (Qabs (width s * sn + height s * c))
  end.

(** [text.split("\n").length] *)
Definition nlines (t : TextFields) : nat := List.length (split_lines (text t)).

(** [BaseExpo._shift_scale]: [base instanceof TextBox] holds for
    [TextBox] and its subclass [ImageTextBox]. *)
Definition BaseExpo__shift_scale (base : gbox) : Q :=
  match base with
  | TextBox _ t | ImageTextBox _ t _ =>
      if Nat.eqb (nlines t) 1 then
        let fm := font_metrics sv (font t) in fm_x_height fm / fm_cap_height fm
      else 2 # 3
  | _ => 2 # 3
  end.

(** [_size()] of every box kind; [BaseExpo] measures its children with
    [size()], [GraphicsContainer] with [_size()]. *)
Fixpoint gbox__size (b : gbox) : Size :=
  match b with
  | TextBox c t => TextBox__size c t
  | ImageTextBox c t i => ImageTextBox__size c t i
  | BaseExpo _ base expo =>
      let bs := rotated_size (c_angle (common_of base)) (gbox__size base) in
      let es := rotated_size (c_angle (common_of expo)) (gbox__size expo) in
      mkSize (width bs + width es)
             (Qmax (height bs) (BaseExpo__shift_scale base * height bs + height es))
  | GraphicsContainer _ items =>
      (fix go (l : list gbox) (w h : Q) : Size :=
         match l with
         | [] => mkSize w h
         | item :: r =>
             let s := gbox__size item in
             go r (w + width s) (Qmax h (height s))
         end) items 0 0
  end.

(** [GraphicsBox.size()] *)
Definition gbox_size (b : gbox) : Size :=
  rotated_size (c_angle (common_of b)) (gbox__size b).

End BoxModel.

(* ------------------------------------------------------------------ *)
(** ** core/graphics: position setters and visuals *)

Section BoxLayout.
Variable sv : Services.

Definition default {A} (d : A) (o : option A) : A :=
  match o with Some a => a | None => d end.

(** The horizontal anchor term of [_computed_position]. *)
Definition x_anchor_offset (a : XAnchor) (w : Q) : Q :=
  match a with
  | XNum q => q * w
  | XLeft => 0
  | XCenter => (1 # 2) * w
  | XRight => w
  end.

Definition is_top (a : YAnchor) : bool :=
  match a with YTop => true | _ => false end.

(** Positions assigned to the items by [GraphicsContainer.compute_items_positions]
    for one call of the container's [position] setter with [p]: one list per
    item, in assignment order (the first item is assigned twice). [x] is the
    container's computed left edge, [csize] its [_size()], [sizes] the items'
    [_size()]. *)
Fixpoint items_positions (p : Position) (ya : YAnchor) (csize : Size)
    (first : bool) (cur_sx prev_w : Q) (sizes : list Size) : list (list Position) :=
  match sizes with
  | [] => []
  | s :: r =>
      let sx1 := if first then cur_sx else cur_sx + prev_w in
      let container_space := if is_top ya then height s - height csize else 0 in
      let item_sy := sy p - container_space in
      let placed := mkPosition sx1 item_sy (Some XLeft) (Some ya) in
      (if first
       then [mkPosition (sx p - width s) (sy p) (x_anchor p) (y_anchor p); placed]
       else [placed])
      :: items_positions p ya csize false sx1 (width s) r
  end.

(** The items of a container in turn, [f item k] for the item at index
    [k]; the first that raises ([None]) aborts the loop. *)
Fixpoint mapi_from (f : gbox -> nat -> option gbox) (l : list gbox) (k : nat) : option (list gbox) :=
  match l with
  | [] => Some []
  | item :: r =>
      match f item k with
      | None => None
      | Some item' =>
          match mapi_from f r (S k) with
          | None => None
          | Some r' => Some (item' :: r')
          end
      end
  end.

(** The [position] setter applied successively with each position of [ps];
    [None]: a setter raises. Box sizes do not depend on positions, so the
    sizes read by the setters are those of the input boxes. [BaseExpo]
    positions its base, then its exponent. A container's setter reads
    [this.items[0]._size()], which raises on a container without items;
    otherwise it positions every item. Whether a call raises depends only
    on the box, not on the position, so the calls are grouped by item. *)
Fixpoint set_positions (b : gbox) (ps : list Position) : option gbox :=
  match b with
  | TextBox c t => Some (TextBox (fold_left set_c_position ps c) t)
  | ImageTextBox c t i => Some (ImageTextBox (fold_left set_c_position ps c) t i)
  | BaseExpo c base expo =>
      let bs := gbox_size sv base in
      let es := gbox_size sv expo in
      let shift := BaseExpo__shift_scale sv base * height bs in
      let h := Qmax (height bs) (shift + height es) in
      let bp := mkPosition 0 h (Some XLeft) (Some YBottom) in
      let ep := mkPosition (width bs) shift (Some XLeft) (Some YBottom) in
      match set_positions base (map (fun _ => bp) ps) with
      | None => None
      | Some base' =>
          match set_positions expo (map (fun _ => ep) ps) with
          | None => None
          | Some expo' => Some (BaseExpo (fold_left set_c_position ps c) base' expo')
          end
      end
  | GraphicsContainer c items =>
      match items, ps with
      | [], _ :: _ => None
      | _, _ =>
          let csize := gbox__size sv (GraphicsContainer c items) in
          let sizes := map (gbox__size sv) items in
          let per_call (p : Position) : list (list Position) :=
            let x := sx p - x_anchor_offset (default (c_x_anchor c) (x_anchor p)) (width csize) in
            items_positions p (default YCenter (y_anchor p)) csize true x 0 sizes in
          let for_item (k : nat) : list Position :=
            List.concat (map (fun p => nth k (per_call p) []) ps) in
          match mapi_from (fun item k => set_positions item (for_item k)) items 0%nat with
          | None => None
          | Some items' => Some (GraphicsContainer (fold_left set_c_position ps c) items')
          end
      end
  end.

(** [box.position = p] *)
Definition set_position (b : gbox) (p : Position) : option gbox := set_positions b [p].

(** Whether [b] is or contains a [GraphicsContainer] without items. *)
Fixpoint has_empty_container (b : gbox) : bool :=
  match b with
  | TextBox _ _ | ImageTextBox _ _ _ => false
  | BaseExpo _ base expo => has_empty_container base || has_empty_container expo
  | GraphicsContainer _ items =>
      match items with
      | [] => true
      | _ => existsb has_empty_container items
      end
  end.

(** [TextBox]'s [visuals] setter (inherited by [ImageTextBox]). *)
Definition TextBox_visuals (c : Common) (t : TextFields) (v : TextVisuals) : Common * TextFields :=
  let size :=
    match parse_css_font_size sv (tv_font_size v) with
    | Some (value0, unit0) =>
        let value := value0 * c_font_size_scale c in
        if (String.eqb unit0 "em" && negb (Qeq_bool (c_base_font_size c) 0))%bool
        then (number_to_string sv (value * c_base_font_size c) ++ "px")%string
        else (number_to_string sv value ++ unit0)%string
    | None => tv_font_size v
    end in
  let fnt := (tv_font_style v ++ " " ++ size ++ " " ++ tv_font v)%string in
  let y_anchor := match tv_baseline v with
                  | BTop => YTop
                  | BMiddle => YCenter
                  | BBottom => YBottom
                  | _ => YBaseline
                  end in
  (set_c_anchors c (tv_align v) y_anchor,
   {| text := text t; color := color2css sv (tv_color v) (tv_alpha v); font := fnt;
      line_height := tv_line_height v; visual_align := tv_align v |}).

(** [metric_map] of [GraphicsContainer.visuals]. *)
Definition metric_rank (m : TextHeightMetric) : Z :=
  match m with
  | THx => 0 | THcap => 1 | THascent => 2
  | THx_descent => 3 | THcap_descent => 4 | THascent_descent => 5
  end%Z.

(** Modelled from the spec: [max_by] of core/util/array (not in src/) picks
    the element of maximum key, the first one among equal keys; on an empty
    array there is no element and the library raises ([None]). *)
Definition max_by {A} (key : A -> Z) (l : list A) : option A :=
  match l with
  | [] => None
  | x :: r => Some (fold_left (fun best y => if Z.ltb (key best) (key y) then y else best) r x)
  end.

(** Every assignment in turn; the first that raises aborts the loop. *)
Fixpoint all_some {A} (l : list (option A)) : option (list A) :=
  match l with
  | [] => Some []
  | Some a :: r => match all_some r with Some r' => Some (a :: r') | None => None end
  | None :: _ => None
  end.

(** The [visuals] setters. [scale] is an assignment of [font_size_scale]
    made just before, as [BaseExpo] does on its exponent. [None] as result:
    the setter raises. *)
Fixpoint set_visuals_at (b : gbox) (scale : option Q) (v : TextVisuals) : option gbox :=
  let c0 := match scale with
            | Some s => set_c_font_size_scale (common_of b) s
            | None => common_of b
            end in
  match b with
  | TextBox _ t => let '(c', t') := TextBox_visuals c0 t v in Some (TextBox c' t')
  | ImageTextBox _ t i => let '(c', t') := TextBox_visuals c0 t v in Some (ImageTextBox c' t' i)
  | BaseExpo _ base expo =>
      match set_visuals_at base None v, set_visuals_at expo (Some (7 # 10)) v with
      | Some base', Some expo' => Some (BaseExpo c0 base' expo')
      | _, _ => None
      end
  | GraphicsContainer _ items =>
      let items1 := all_some (map (fun item => set_visuals_at item None v) items) in
      match items1 with
      | None => None
      | Some items1 =>
          match max_by metric_rank (map infer_text_height items1) with
          | None => None
          | Some common =>
              Some (GraphicsContainer c0
                      (map (fun item => with_common item
                              (set_c_text_height_metric (common_of item) (Some common)))
                           items1))
          end
      end
  end.

(** [box.visuals = v] *)
Definition set_visuals (b : gbox) (v : TextVisuals) : option gbox := set_visuals_at b None v.

End BoxLayout.

(* ------------------------------------------------------------------ *)
(** ** models/text/math_text: [MathTextView.parse_math_parts] *)

(** A span found by the provider's [find_tex]: [start.n], [end.n], [math]. *)
Record TexPart := mkTexPart { tp_start : nat; tp_end : nat; tp_math : jsstring }.

(** [text.slice(a, b)] for non-negative indices. *)
Definition js_slice (s : jsstring) (a b : nat) : jsstring := firstn (b - a) (skipn a s).

Definition new_TextBox (t : jsstring) : gbox := TextBox default_common (new_text_fields t).
(** [new ImageTextBox({text, load_image})]: [image] starts [null]. *)
Definition new_ImageTextBox (t : jsstring) : gbox :=
  ImageTextBox default_common (new_text_fields t) None.

(** [parse_math_parts]; [has_mathjax] is [this.provider.MathJax] being set,
    [tex_parts] is what [find_tex(text)] returns. *)
Definition parse_math_parts (has_mathjax : bool) (tex_parts : list TexPart)
    (text : jsstring) : list gbox :=
  if negb has_mathjax then []
  else
    (fix go (parts : list TexPart) (last_index : nat) : list gbox :=
       match parts with
       | [] =>
           if Nat.ltb last_index (List.length text)
           then [new_TextBox (skipn last_index text)] else []
       | part :: r =>
           let _text := js_slice text last_index (tp_start part) in
           (match _text with [] => [] | _ => [new_TextBox _text] end)
           ++ new_ImageTextBox (tp_math part) :: go r (tp_end part)
       end) tex_parts 0%nat.

(* ------------------------------------------------------------------ *)
(** ** models/text/math_text: [MathMLView.styled_text] *)

Definition cu (c : ascii) : N := N_of_ascii c.

Fixpoint first_some {A} (f : nat -> option A) (i fuel : nat) : option A :=
  match fuel with
  | O => None
  | S n => match f i with Some a => Some a | None => first_some f (S i) n end
  end.

Fixpoint list_eqb (a b : jsstring) : bool :=
  match a, b with
  | [], [] => true
  | x :: a', y :: b' => N.eqb x y && list_eqb a' b'
  | _, _ => false
  end.

Definition starts_at (s : jsstring) (i : nat) (pat : jsstring) : bool :=
  list_eqb (firstn (List.length pat) (skipn i s)) pat.

Definition unit_at (s : jsstring) (i : nat) (c : N) : bool :=
  match nth_error s i with Some d => N.eqb c d | None => false end.

Definition sublist (s : jsstring) (a b : nat) : jsstring := firstn (b - a) (skipn a s).

(** First match of [/<math(.*?[^?])?>/s] (backtracking order): leftmost
    start; the optional group is greedy, so it is tried first, its lazy
    [.*?] growing one unit at a time until a non-[?] unit is followed by
    [>]; only when the group cannot match is the bare [<math>] tried. *)
Definition match_math_open (s : jsstring) : option jsstring :=
  let n := List.length s in
  first_some (fun i =>
    if starts_at s i (js "<math") then
      match first_some (fun j =>
              match nth_error s j with
              | Some c => if (negb (N.eqb c (cu "?")) && unit_at s (S j) (cu ">"))%bool
                          then Some (j + 2)%nat else None
              | None => None
              end) (i + 5)%nat n with
      | Some e => Some (sublist s i e)
      | None => if unit_at s (i + 5)%nat (cu ">") then Some (sublist s i (i + 6)%nat) else None
      end
    else None) 0%nat (S n).

(** First match of [/<\/[^>]*?math.*?>/s]. *)
Definition match_math_close (s : jsstring) : option jsstring :=
  let n := List.length s in
  first_some (fun i =>
    if starts_at s i (js "</") then
      first_some (fun k =>
        if (forallb (fun c => negb (N.eqb c (cu ">"))) (firstn k (skipn (i + 2) s))
            && starts_at s (i + 2 + k) (js "math"))%bool
        then first_some (fun q => if unit_at s q (cu ">") then Some (sublist s i (S q)) else None)
                        (i + 6 + k)%nat n
        else None) 0%nat n
    else None) 0%nat (S n).

(** [s.indexOf(sub)], [-1] when absent. *)
Definition index_of (s sub : jsstring) : Z :=
  match first_some (fun i => if starts_at s i sub then Some i else None) 0%nat (S (List.length s)) with
  | Some i => Z.of_nat i
  | None => (-1)%Z
  end.

(** Modelled from the spec: [insert_text_on_position] of core/util/string
    (not in src/) inserts [value] into [text] at index [pos], the index
    normalised as by [Array.prototype.splice]. *)
Definition insert_text_on_position (text value : jsstring) (pos : Z) : jsstring :=
  let len := Z.of_nat (List.length text) in
  let p := if (pos <? 0)%Z then Z.max (len + pos) 0 else Z.min pos len in
  firstn (Z.to_nat p) text ++ value ++ skipn (Z.to_nat p) text.

(** White space and line terminators removed by [String.prototype.trim]. *)
Definition is_js_space (c : N) : bool :=
  existsb (N.eqb c)
    [9; 10; 11; 12; 13; 32; 160; 5760; 8192; 8193; 8194; 8195; 8196; 8197; 8198;
     8199; 8200; 8201; 8202; 8232; 8233; 8239; 8287; 12288; 65279]%N.

Fixpoint drop_spaces (s : jsstring) : jsstring :=
  match s with
  | c :: r => if is_js_space c then drop_spaces r else s
  | [] => []
  end.

Definition trim (s : jsstring) : jsstring := rev (drop_spaces (rev (drop_spaces s))).

Definition dq : jsstring := [34%N].

(** [<mstyle displaystyle="true" mathcolor="${hex}">] *)
Definition mstyle_open (hex : jsstring) : jsstring :=
  js "<mstyle displaystyle=" ++ dq ++ js "true" ++ dq ++ js " mathcolor=" ++ dq
  ++ hex ++ dq ++ js ">".

(** [MathMLView.styled_text]; [hex] is [color2hexrgb(image_box.color)]. *)
Definition MathML_styled_text (box_text hex : jsstring) : jsstring :=
  let styled := trim box_text in
  match match_math_open styled with
  | None => trim box_text
  | Some m0 =>
      let styled := insert_text_on_position styled (mstyle_open hex)
                      (index_of styled m0 + Z.of_nat (List.length m0)) in
      match match_math_close styled with
      | None => trim box_text
      | Some m1 => insert_text_on_position styled (js "</mstyle>") (index_of styled m1)
      end
  end.

(* ------------------------------------------------------------------ *)
(** ** models/text/math_text: the [style] rules of [get_image_properties] *)

(** [s.split(sep)] for a one-unit separator; [split_lines] is the case
    [sep = "\n"]. *)
Fixpoint split_units (sep : N) (s : jsstring) : list jsstring :=
  match s with
  | [] => [[]]
  | c :: r =>
      match split_units sep r with
      | [] => [[c]]
      | l :: ls => if N.eqb c sep then [] :: l :: ls else (c :: l) :: ls
      end
  end.


(** [new Map()] with [set] and [get], keys compared by content. *)
Definition rules_map := list (jsstring * jsstring).

Definition map_set (m : rules_map) (k v : jsstring) : rules_map := (k, v) :: m.

Definition map_get (m : rules_map) (k : jsstring) : option jsstring :=
  match find (fun e => list_eqb (fst e) k) m with
  | Some (_, v) => Some v
  | None => None
  end.

(** [const [rule, value] = property.split(":"); if (rule) rulesMap.set(rule.trim(), value.trim())]:
    [value] is [undefined] when the declaration has no [":"], and
    [value.trim()] then raises ([None]). *)
Definition add_rule (m : option rules_map) (property : jsstring) : option rules_map :=
  match m with
  | None => None
  | Some m =>
      match split_units (cu ":") property with
      | rule :: rest =>
          match rule with
          | [] => Some m
          | _ => match rest with
                 | value :: _ => Some (map_set m (trim rule) (trim value))
                 | [] => None
                 end
          end
      | [] => Some m
      end
  end.

(** The [rulesMap] built from the [style] attribute, or [None] when the
    loop raises. *)
Definition svg_style_rules (style : jsstring) : option rules_map :=
  fold_left add_rule (split_units (cu ";") style) (Some []).

(* ------------------------------------------------------------------ *)
(** ** models/text/math_text: the asynchronous [load_image] pipeline *)

Module Pipeline.

Inductive ProviderStatus := NotStarted | Loading | Ready | Failed.

Definition is_pending (s : ProviderStatus) : bool :=
  match s with NotStarted | Loading => true | _ => false end.

Definition is_failed (s : ProviderStatus) : bool :=
  match s with Failed => true | _ => false end.

(** Items of [graphics().items] as seen by [is_image_box]: an
    [ImageTextBox] is known by its identity, shared between the container
    and the [load_image] closure. *)
Inductive item := PText | PImage (box : nat).

(** Observable effects, in program order. *)
Inductive effect :=
  | EConnectReady (box : nat)        (* provider.ready.connect(() => load_image(box)) *)
  | ENotifyFinished                  (* parent.notify_finished_after_paint() *)
  | ECreateURL (url : nat)           (* URL.createObjectURL(blob) *)
  | ERevokeURL (url : nat)           (* URL.revokeObjectURL(url) *)
  | ESetImage (box img : nat)        (* image_box.image = svg_image *)
  | ERequestLayout                   (* parent.request_layout() *)
  | ERejected (box : nat).           (* the promise of load_image(box) rejects *)

(** A suspended [await load_image(url)]: box, blob URL, SVG element. *)
Record pending := mkPending { pd_box : nat; pd_url : nat; pd_svg : nat }.

Record View := mkView {
  status : ProviderStatus;            (* provider.status *)
  items : list item;                  (* graphics().items *)
  images : list (nat * nat);          (* image_box.image, by box *)
  has_finished : bool;                (* this._has_finished *)
  ready_handlers : list nat;          (* boxes connected to provider.ready *)
  in_flight : list pending;           (* decodes awaiting resolution *)
  live_urls : list nat;               (* created and not yet revoked *)
  next_url : nat;
  log : list effect }.

Definition image_of (v : View) (b : nat) : option nat :=
  match find (fun e => Nat.eqb (fst e) b) (images v) with
  | Some (_, img) => Some img
  | None => None
  end.

(** [has_images_loaded] *)
Definition has_images_loaded (v : View) : bool :=
  forallb (fun it => match it with
                     | PText => true
                     | PImage b => match image_of v b with Some _ => true | None => false end
                     end) (items v).

Definition emit (v : View) (e : effect) : View :=
  {| status := status v; items := items v; images := images v;
     has_finished := has_finished v; ready_handlers := ready_handlers v;
     in_flight := in_flight v; live_urls := live_urls v; next_url := next_url v;
     log := log v ++ [e] |}.

Definition set_finished (v : View) (f : bool) : View :=
  {| status := status v; items := items v; images := images v;
     has_finished := f; ready_handlers := ready_handlers v;
     in_flight := in_flight v; live_urls := live_urls v; next_url := next_url v;
     log := log v |}.

Section Load.
(** [this._process_text(image_box)] of the concrete view: the SVG element of
    the typeset box, or [undefined]. [AsciiView] always yields [undefined]. *)
Variable process_text : nat -> option nat.

(** [svg_element.getAttribute("style")] of an SVG element returned by
    [_process_text] ([None]: no such attribute). *)
Variable svg_style : nat -> option jsstring.

(** Whether [parse_css_length] (core/util/text, not in src/) returns
    normally on [rulesMap.get("vertical-align")] ([None]: the key is absent). *)
Variable parse_css_length_returns : option jsstring -> bool.

(** Whether [get_image_properties(svg_element, ...)] returns normally:
    without a [style] attribute the rules are skipped; otherwise the loop
    over its declarations may raise, then [parse_css_length] may. The
    attribute parsing ([parseFloat]) and the arithmetic never raise. *)
Definition get_image_properties_returns (svg : nat) : bool :=
  match svg_style svg with
  | None => true
  | Some style =>
      match svg_style_rules style with
      | None => false
      | Some m => parse_css_length_returns (map_get m (js "vertical-align"))
      end
  end.

(** The synchronous part of [load_image(image_box)], up to the [await]. *)
Definition load_image (v : View) (b : nat) : View :=
  if (negb (has_images_loaded v) && is_pending (status v))%bool then
    let v1 := {| status := status v; items := items v; images := images v;
                 has_finished := has_finished v; ready_handlers := ready_handlers v ++ [b];
                 in_flight := in_flight v; live_urls := live_urls v;
                 next_url := next_url v; log := log v |} in
    set_finished (emit v1 (EConnectReady b)) false
  else if (negb (has_finished v) && (is_failed (status v) || has_images_loaded v))%bool then
    emit (set_finished v true) ENotifyFinished
  else
    match process_text b with
    | None => emit (set_finished v true) ENotifyFinished
    | Some svg =>
        let url := next_url v in
        {| status := status v; items := items v; images := images v;
           has_finished := has_finished v; ready_handlers := ready_handlers v;
           in_flight := in_flight v ++ [mkPending b url svg];
           live_urls := live_urls v ++ [url]; next_url := S url;
           log := log v ++ [ECreateURL url] |}
    end.

(** [ImageTextBox.paint]: without an image, call the loader and return;
    with one, draw it (drawing is not observed here). *)
Definition paint (v : View) (b : nat) : View :=
  match image_of v b with
  | None => load_image v b
  | Some _ => v
  end.

Inductive decode_outcome := Decoded (img : nat) | Rejected.

Fixpoint remove_first (p : pending) (l : list pending) : list pending :=
  match l with
  | [] => []
  | q :: r =>
      if (Nat.eqb (pd_box p) (pd_box q) && Nat.eqb (pd_url p) (pd_url q)
          && Nat.eqb (pd_svg p) (pd_svg q))%bool
      then r else q :: remove_first p r
  end.

(** The continuation of [load_image] once [load_image(url)] settles:
    the [finally] revokes the URL, then either the rejection propagates or
    the image is stored and [get_image_properties] runs; when it raises the
    promise rejects, otherwise a layout is requested and completion
    signalled when every image box has its image. *)
Definition resume_load (v : View) (p : pending) (o : decode_outcome) : View :=
  let url := pd_url p in
  let v1 := {| status := status v; items := items v; images := images v;
               has_finished := has_finished v; ready_handlers := ready_handlers v;
               in_flight := remove_first p (in_flight v);
               live_urls := remove Nat.eq_dec url (live_urls v);
               next_url := next_url v; log := log v ++ [ERevokeURL url] |} in
  match o with
  | Rejected => emit v1 (ERejected (pd_box p))
  | Decoded img =>
      let v2 := {| status := status v1; items := items v1;
                   images := (pd_box p, img) :: images v1;
                   has_finished := has_finished v1; ready_handlers := ready_handlers v1;
                   in_flight := in_flight v1; live_urls := live_urls v1;
                   next_url := next_url v1;
                   log := log v1 ++ [ESetImage (pd_box p) img] |} in
      if get_image_properties_returns (pd_svg p) then
        let v3 := emit v2 ERequestLayout in
        if has_images_loaded v3 then emit (set_finished v3 true) ENotifyFinished else v3
      else emit v2 (ERejected (pd_box p))
  end.

(** Runs of the view: paints, settling of the [i]-th pending decode, and the
    provider settling (its [ready] signal calls every connected handler). *)
Inductive event :=
  | Paint (b : nat)
  | Settle (i : nat) (o : decode_outcome)
  | ProviderSettles (s : ProviderStatus).

Definition step (v : View) (e : event) : View :=
  match e with
  | Paint b => paint v b
  | Settle i o =>
      match nth_error (in_flight v) i with
      | Some p => resume_load v p o
      | None => v
      end
  | ProviderSettles s =>
      let v1 := {| status := s; items := items v; images := images v;
                   has_finished := has_finished v; ready_handlers := ready_handlers v;
                   in_flight := in_flight v; live_urls := live_urls v;
                   next_url := next_url v; log := log v |} in
      fold_left load_image (ready_handlers v) v1
  end.

Definition run (v : View) (es : list event) : View := fold_left step es v.

End Load.

(** Number of in-flight decodes for box [b]. *)
Definition in_flight_for (v : View) (b : nat) : nat :=
  List.length (filter (fun p => Nat.eqb (pd_box p) b) (in_flight v)).

Definition count_notify (l : list effect) : nat :=
  List.length (filter (fun e => match e with ENotifyFinished => true | _ => false end) l).

(** [AsciiView._process_text] *)
Definition ascii_process_text : nat -> option nat := fun _ => None.

End Pipeline.

(* ------------------------------------------------------------------ *)
(** ** core/graphics: computed positions, painting and cascading setters *)

Definition cu_space : N := 32%N.

Section BoxPaint.
Variable sv : Services.

(** [!angle] is false for [undefined] and for [0]. *)
Definition angle_truthy (a : option Q) : bool :=
  match a with
  | None => false
  | Some q => negb (Qeq_bool q 0)
  end.

(** [this.text_height_metric ?? this.infer_text_height()] of a [TextBox]. *)
Definition TextBox_metric (c : Common) (t : TextFields) : TextHeightMetric :=
  match c_text_height_metric c with
  | Some m => m
  | None => TextBox_infer_text_height (text t)
  end.

(** [TextBox._computed_position(size, metrics, nlines)] *)
Definition TextBox__computed_position (c : Common) (t : TextFields) (s : Size)
    (metrics : FontMetrics) (nl : nat) : Q * Q :=
  let p := c_position c in
  let xa := default (c_x_anchor c) (x_anchor p) in
  let ya := default (c_y_anchor c) (y_anchor p) in
  let x := sx p - x_anchor_offset xa (width s) in
  let y := sy p - match ya with
                  | YNum q => q * height s
                  | YTop => 0
                  | YCenter => (1 # 2) * height s
                  | YBottom => height s
                  | YBaseline =>
                      if Nat.eqb nl 1 then
                        match TextBox_metric c t with
                        | THx | THx_descent => fm_x_height metrics
                        | THcap | THcap_descent => fm_cap_height metrics
                        | THascent | THascent_descent => fm_ascent metrics
                        end
                      else (1 # 2) * height s
                  end in
  (x, y).

(** [ImageTextBox._computed_position(size, metrics, _nlines)] *)
Definition ImageTextBox__computed_position (c : Common)
    (image : option (nat * ImageProperties)) (s : Size) (metrics : FontMetrics) : Q * Q :=
  let p := c_position c in
  match image with
  | None => (sx p, sy p)
  | Some (_, props) =>
      let xa := default (c_x_anchor c) (x_anchor p) in
      let ya := default (c_y_anchor c) (y_anchor p) in
      let x := sx p - x_anchor_offset xa (width s) in
      let y := sy p - match ya with
                      | YNum q => q * height s
                      | YTop => if Qltb (height s) (fm_height metrics)
                                then height s - fm_height metrics + v_align props else 0
                      | YCenter => (1 # 2) * height s
                      | YBottom => if Qltb (height s) (fm_height metrics)
                                   then height s + v_align props else height s
                      | YBaseline => (1 # 2) * height s
                      end in
      (x, y)
  end.

(** [_computed_position()] of [BaseExpo] and of [GraphicsContainer]: the
    anchors are applied to the box's own [_size()], and [baseline] is
    treated as [center]. *)
Definition box__computed_position (b : gbox) : Q * Q :=
  let c := common_of b in
  let s := gbox__size sv b in
  let p := c_position c in
  let xa := default (c_x_anchor c) (x_anchor p) in
  let ya := default (c_y_anchor c) (y_anchor p) in
  let x := sx p - x_anchor_offset xa (width s) in
  let y := sy p - match ya with
                  | YNum q => q * height s
                  | YTop => 0
                  | YCenter => (1 # 2) * height s
                  | YBottom => height s
                  | YBaseline => (1 # 2) * height s
                  end in
  (x, y).

(** Calls made on the canvas context, in program order; [OLoadImage] is the
    call [this.load_image(this)] of an [ImageTextBox] without image. *)
Inductive op :=
  | OSave | ORestore
  | OFillStyle (s : string) | OFont (s : string)
  | OTextAlign (s : string) | OTextBaseline (s : string)
  | OTranslate (x y : Q) | ORotate (a : Q)
  | OFillText (s : jsstring) (x y : Q)
  | ODrawImage (img : nat) (x y w h : Q)
  | OLoadImage.

(** [if (angle) { translate(sx, sy); rotate(angle); translate(-sx, -sy) }] *)
Definition rotate_ops (c : Common) : list op :=
  match c_angle c with
  | Some a =>
      if angle_truthy (Some a) then
        let p := c_position c in
        [OTranslate (sx p) (sy p); ORotate a; OTranslate (- sx p) (- sy p)]
      else []
  | None => []
  end.

(** [sum] of core/util/array. *)
Definition sum (l : list Q) : Q := fold_left Qplus l 0.

(** The geometry computed at the head of [TextBox.paint]: [width],
    [height], the line advance [text_line.height + line_spacing] and the
    line ascent. Unlike [_size()], the height has no [empty] case. *)
Definition TextBox_paint_geometry (c : Common) (t : TextFields) : Size * Q * Q :=
  let fmetrics := font_metrics sv (font t) in
  let line_spacing := (line_height t - 1) * fm_height fmetrics in
  let lines := split_lines (text t) in
  let nl := Q_of_nat (List.length lines) in
  let widths := map (fun line => text_width sv line (font t)) lines in
  let '(tl_height, tl_ascent, _) := text_line (TextBox_metric c t) fmetrics in
  let text_height := tl_height * nl in
  let w_scale := pct_scale (c_width c) in
  let h_scale := pct_scale (c_height c) in
  let w := match widths with [] => 0 | w0 :: ws => max_nonempty w0 ws end * w_scale in
  let h := (text_height + line_spacing * (nl - 1)) * h_scale in
  (mkSize w h, tl_height + line_spacing, tl_ascent).

(** Inner loop of the [justify] branch over the words of one line. *)
Fixpoint justify_words (fnt : string) (y spacing xij : Q) (words : list jsstring) : list op :=
  match words with
  | [] => []
  | w :: r => OFillText w xij y :: justify_words fnt y spacing (xij + text_width sv w fnt + spacing) r
  end.

(** One line of the [justify] branch. With a single word JS divides by
    zero; the spacing is then only added after the last word, so the
    calls made do not depend on it. *)
Definition justify_line (fnt : string) (x y w : Q) (line : jsstring) : list op :=
  let words := split_units cu_space line in
  let word_widths := map (fun word => text_width sv word fnt) words in
  let word_spacing := (w - sum word_widths) / (Q_of_nat (List.length words) - 1) in
  justify_words fnt y word_spacing x words.

Fixpoint justify_lines (fnt : string) (x y w advance : Q) (lines : list jsstring) : list op :=
  match lines with
  | [] => []
  | l :: r => justify_line fnt x y w l ++ justify_lines fnt x (y + advance) w advance r
  end.

(** [align == "auto" ? this._visual_align : align] in the non-justified
    branch, as an anchor. *)
Definition line_align (c : Common) (t : TextFields) : XAnchor :=
  match c_align c with
  | AAuto => visual_align t
  | ALeft => XLeft
  | ACenter => XCenter
  | ARight => XRight
  | AJustify => XLeft  (* handled by the other branch *)
  end.

(** The [switch] on the alignment: the offset of a line of width [wi]. A
    numeric anchor is not among the values of [_visual_align]. *)
Definition line_offset (a : XAnchor) (w wi : Q) : Q :=
  match a with
  | XLeft => 0
  | XCenter => (1 # 2) * (w - wi)
  | XRight => w - wi
  | XNum _ => 0
  end.

Fixpoint plain_lines (a : XAnchor) (col fnt : string) (x y w ascent advance : Q)
    (lines : list jsstring) : list op :=
  match lines with
  | [] => []
  | l :: r =>
      OFillStyle col :: OFillText l (x + line_offset a w (text_width sv l fnt)) (y + ascent)
      :: plain_lines a col fnt x (y + advance) w ascent advance r
  end.

(** [TextBox.paint] *)
Definition TextBox_paint (c : Common) (t : TextFields) : list op :=
  let fmetrics := font_metrics sv (font t) in
  let lines := split_lines (text t) in
  let '(s, advance, ascent) := TextBox_paint_geometry c t in
  let '(x, y) := TextBox__computed_position c t s fmetrics (List.length lines) in
  [OSave; OFillStyle (color t); OFont (font t); OTextAlign "left"; OTextBaseline "alphabetic"]
  ++ rotate_ops c
  ++ (match c_align c with
      | AJustify => justify_lines (font t) x y (width s) advance lines
      | _ => plain_lines (line_align c t) (color t) (font t) x y (width s) ascent advance lines
      end)
  ++ [ORestore].

(** [ImageTextBox.paint]: drawn at the [image_properties] size. *)
Definition ImageTextBox_paint (c : Common) (t : TextFields)
    (image : option (nat * ImageProperties)) : list op :=
  match image with
  | None => [OLoadImage]
  | Some (img, props) =>
      let s := mkSize (ip_width props) (ip_height props) in
      let '(x, y) := ImageTextBox__computed_position c image s (font_metrics sv (font t)) in
      [OSave] ++ rotate_ops c ++ [ODrawImage img x y (ip_width props) (ip_height props); ORestore]
  end.

(** [paint] of every box kind. *)
Fixpoint gbox_paint (b : gbox) : list op :=
  match b with
  | TextBox c t => TextBox_paint c t
  | ImageTextBox c t i => ImageTextBox_paint c t i
  | BaseExpo c base expo =>
      let '(x, y) := box__computed_position b in
      [OSave] ++ rotate_ops c ++ [OTranslate x y] ++ gbox_paint base ++ gbox_paint expo ++ [ORestore]
  | GraphicsContainer _ items =>
      (fix go (l : list gbox) : list op :=
         match l with
         | [] => []
         | item :: r => gbox_paint item ++ go r
         end) items
  end.

End BoxPaint.

Definition set_c_angle (c : Common) (a : option Q) : Common :=
  {| c_position := c_position c; c_angle := a; c_width := c_width c;
     c_height := c_height c; c_font_size_scale := c_font_size_scale c;
     c_text_height_metric := c_text_height_metric c; c_align := c_align c;
     c_base_font_size := c_base_font_size c; c_x_anchor := c_x_anchor c;
     c_y_anchor := c_y_anchor c |}.

Definition set_c_base_font_size (c : Common) (v : Q) : Common :=
  {| c_position := c_position c; c_angle := c_angle c; c_width := c_width c;
     c_height := c_height c; c_font_size_scale := c_font_size_scale c;
     c_text_height_metric := c_text_height_metric c; c_align := c_align c;
     c_base_font_size := v; c_x_anchor := c_x_anchor c;
     c_y_anchor := c_y_anchor c |}.

(** The [angle] setters with a number: [GraphicsBox]'s stores it;
    [GraphicsContainer]'s stores it and sets it on every item; [BaseExpo]
    inherits [GraphicsBox]'s and leaves its children alone. *)
Fixpoint set_angle (b : gbox) (a : Q) : gbox :=
  match b with
  | GraphicsContainer c items =>
      GraphicsContainer (set_c_angle c (Some a)) (map (fun item => set_angle item a) items)
  | _ => with_common b (set_c_angle (common_of b) (Some a))
  end.

(** The [base_font_size] setters; [None] is [null]/[undefined]:
    [GraphicsBox]'s ignores it; [BaseExpo]'s passes it to [super] and to
    both children; [GraphicsContainer]'s stores it when non-null and passes
    it to every item in any case. *)
Fixpoint set_base_font_size (b : gbox) (v : option Q) : gbox :=
  let c' := match v with
            | Some q => set_c_base_font_size (common_of b) q
            | None => common_of b
            end in
  match b with
  | TextBox _ t => TextBox c' t
  | ImageTextBox _ t i => ImageTextBox c' t i
  | BaseExpo _ base expo => BaseExpo c' (set_base_font_size base v) (set_base_font_size expo v)
  | GraphicsContainer _ items => GraphicsContainer c' (map (fun item => set_base_font_size item v) items)
  end.

(** A box followed by every box it contains. *)
Fixpoint subboxes (b : gbox) : list gbox :=
  b :: match b with
       | TextBox _ _ | ImageTextBox _ _ _ => []
       | BaseExpo _ base expo => subboxes base ++ subboxes expo
       | GraphicsContainer _ items =>
           (fix go (l : list gbox) : list gbox :=
              match l with [] => [] | item :: r => subboxes item ++ go r end) items
       end.

(** [is_image_box]: only an [ImageTextBox] has an [image] field, [null]
    until loaded. *)
Definition is_image_box (b : gbox) : bool :=
  match b with ImageTextBox _ _ _ => true | _ => false end.

(** [item.image_properties?.v_align ?? 0] of an image box. *)
Definition item_v_align (b : gbox) : Q :=
  match b with
  | ImageTextBox _ _ (Some (_, props)) => v_align props
  | _ => 0
  end.

(** [GraphicsContainer.v_aligns] *)
Definition v_aligns (items : list gbox) : list Q :=
  map (fun item => if is_image_box item then item_v_align item else 0) items.

(** [GraphicsContainer.max_v_align]: the [reduce] keeps the largest
    absolute value seen so far and records the signed value where it
    strictly grows. *)
Definition max_v_align (items : list gbox) : Q :=
  let values := map item_v_align (filter is_image_box items) in
  snd (fold_left (fun acc value =>
                    if Qltb (fst acc) (Qabs value) then (Qabs value, value) else acc)
                 values (0, 0)).

(** The strings passed to [fillText], in call order. *)
Definition drawn_texts (ops : list op) : list jsstring :=
  flat_map (fun o => match o with OFillText s _ _ => [s] | _ => [] end) ops.

(** The y coordinate after [i] advances of [adv] from [y]. *)
Definition advance_by (adv : Q) (i : nat) (y : Q) : Q := Nat.iter i (fun z => z + adv) y.

(** [for_item] of [set_positions] on [GraphicsContainer c items]. *)
Definition container_for_item (sv : Services) (c : Common) (items : list gbox)
    (ps : list Position) (k : nat) : list Position :=
  let csize := gbox__size sv (GraphicsContainer c items) in
  let sizes := map (gbox__size sv) items in
  let per_call (p : Position) : list (list Position) :=
    let x := sx p - x_anchor_offset (default (c_x_anchor c) (x_anchor p)) (width csize) in
    items_positions p (default YCenter (y_anchor p)) csize true x 0 sizes in
  List.concat (map (fun p => nth k (per_call p) []) ps).

(** Induction over boxes, through the items of containers. *)
Fixpoint gbox_ind' (P : gbox -> Prop)
    (Ht : forall c t, P (TextBox c t))
    (Hi : forall c t i, P (ImageTextBox c t i))
    (Hb : forall c base expo, P base -> P expo -> P (BaseExpo c base expo))
    (Hc : forall c items, Forall P items -> P (GraphicsContainer c items))
    (b : gbox) : P b :=
  match b with
  | TextBox c t => Ht c t
  | ImageTextBox c t i => Hi c t i
  | BaseExpo c base expo => Hb c base expo (gbox_ind' P Ht Hi Hb Hc base) (gbox_ind' P Ht Hi Hb Hc expo)
  | GraphicsContainer c items =>
      Hc c items ((fix go (l : list gbox) : Forall P l :=
                     match l with
                     | [] => Forall_nil P
                     | x :: r => Forall_cons x (gbox_ind' P Ht Hi Hb Hc x) (go r)
                     end) items)
  end.

(* ------------------------------------------------------------------ *)
(** ** A concrete measurement environment and sample boxes *)

(** Font ["A"]: ascent 8, descent 2, x-height 3, cap height 5; any other
    font: ascent 6, descent 2. Text is one unit wide per code unit. *)
Definition sample_services : Services :=
  {| font_metrics := fun f => if String.eqb f "A" then mkFontMetrics 10 8 2 3 5
                              else mkFontMetrics 8 6 2 3 5;
     text_width := fun t _ => Q_of_nat (List.length t);
     math_cos := fun _ => 1; math_sin := fun _ => 0;
     parse_css_font_size := fun _ => None;
     number_to_string := fun _ => ""%string;
     color2css := fun c _ => c |}.

Definition sample_text_box (t : string) (fnt : string) : gbox :=
  TextBox default_common (mkTextFields (js t) "" fnt 1 XLeft).

Definition sample_visuals : TextVisuals :=
  mkTextVisuals "black" 1 "normal" "13px" "helvetica" 1 XLeft BAlphabetic.

(** Default box fields with a given [align]. *)
Definition sample_common_align (a : Align) : Common :=
  {| c_position := mkPosition 0 0 None None;
     c_angle := None; c_width := None; c_height := None;
     c_font_size_scale := 1; c_text_height_metric := None;
     c_align := a; c_base_font_size := 13;
     c_x_anchor := XLeft; c_y_anchor := YCenter |}.

Definition sample_view (s : Pipeline.ProviderStatus) : Pipeline.View :=
  Pipeline.mkView s [Pipeline.PImage 0] [] false [] [] [] 0 [].

(** SVG elements as MathJax writes them, with a [vertical-align] rule. *)
Definition sample_svg_style : nat -> option jsstring :=
  fun _ => Some (js "vertical-align: -0.5ex;").

(** A [parse_css_length] that raises on [undefined] (it reads [size.match]). *)
Definition sample_parse_css_length_returns (o : option jsstring) : bool :=
  match o with Some _ => true | None => false end.

Ltac not_in_tac := let H := fresh in intros H; repeat (destruct H as [H|H]; [discriminate H|]); destruct H.

(* ================================================================== *)

(** * Properties *)

(** The characters accepted by [is_math_like]: digits and [, . + - − e]. *)
Definition math_like_char (c : N) : Prop :=
  (48 <= c <= 57)%N \/ In c [44; 46; 43; 45; 8722; 101]%N.

Lemma math_like_unit_spec (c : N) : math_like_unit c = true <-> math_like_char c.
Proof.
  unfold math_like_unit, math_like_char; simpl.
  rewrite !Bool.orb_true_iff, Bool.andb_true_iff, !N.leb_le, !N.eqb_eq.
  split; intros H; intuition subst; auto.
Qed.

Lemma includes_unit_spec (s : jsstring) (c : N) : includes_unit s c = true <-> In c s.
Proof.
  unfold includes_unit; rewrite existsb_exists; split.
  - intros (x & Hx & E); apply N.eqb_eq in E; subst; exact Hx.
  - intros H; exists c; split; [exact H | apply N.eqb_refl].
Qed.

(** ** C7 *)
(** C7: [infer_text_height()] of a [TextBox] is [ascent_descent] when the
    text contains a newline; [cap] when it is single-line and made only of
    digits and [, . + - − e]; [ascent_descent] for every other single-line
    text. *)
Theorem TextBox_infer_text_height_cases (c : Common) (t : TextFields) :
  (In cu_newline (text t) -> infer_text_height (TextBox c t) = THascent_descent) /\
  (~ In cu_newline (text t) -> (forall u, In u (text t) -> math_like_char u) ->
   infer_text_height (TextBox c t) = THcap) /\
  (~ In cu_newline (text t) -> (exists u, In u (text t) /\ ~ math_like_char u) ->
   infer_text_height (TextBox c t) = THascent_descent).
Proof.
  simpl; unfold TextBox_infer_text_height, is_math_like.
  split; [|split].
  - intros H; apply includes_unit_spec in H; rewrite H; reflexivity.
  - intros Hn Hall.
    destruct (includes_unit (text t) cu_newline) eqn:E.
    + apply includes_unit_spec in E; contradiction.
    + replace (forallb math_like_unit (text t)) with true; [reflexivity|].
      symmetry; apply forallb_forall; intros u Hu; apply math_like_unit_spec; auto.
  - intros Hn (u & Hu & Hnot).
    destruct (includes_unit (text t) cu_newline) eqn:E; [reflexivity|].
    destruct (forallb math_like_unit (text t)) eqn:F; [|reflexivity].
    rewrite forallb_forall in F; apply F, math_like_unit_spec in Hu; contradiction.
Qed.

(** ** C10 *)
(** C10: a [TextBox] with the empty text infers [cap] (the character test
    holds vacuously), while its [_size()] has height 0. *)
Theorem TextBox_empty_text_cap_zero_height (sv : Services) (c : Common)
    (col fnt : string) (lh : Q) (va : XAnchor) :
  let t := mkTextFields [] col fnt lh va in
  infer_text_height (TextBox c t) = THcap /\ height (gbox__size sv (TextBox c t)) = 0.
Proof.
  simpl; split; reflexivity.
Qed.

(** ** C3 *)
(** C3 (as stated, refuted): on the empty text, with no math span found,
    [parse_math_parts] yields no item at all, not one [TextBox] holding the
    original text. *)
Lemma parse_math_parts_empty_text_no_item :
  parse_math_parts true [] [] = [] /\
  ~ (exists c t, parse_math_parts true [] [] = [TextBox c t] /\ text t = []).
Proof.
  split; [reflexivity|].
  intros (c & t & H & _); discriminate H.
Qed.

(** C3 (amended): when the provider finds no math span, [parse_math_parts]
    yields exactly one [TextBox] holding the whole text if the text is not
    empty, and no item for the empty text. *)
Theorem parse_math_parts_no_span (text : jsstring) :
  (text <> [] -> parse_math_parts true [] text = [new_TextBox text]) /\
  parse_math_parts true [] [] = [].
Proof.
  split; [|reflexivity].
  intros Hne; unfold parse_math_parts; simpl.
  destruct text as [|u r]; [contradiction|reflexivity].
Qed.

(** ** C6 *)
(** C6 (evaluation at the spec's own scenario): for the MathML text
    [<math><mi>x</mi></math>] with colour [#ff0000], the opening pattern
    [/<math(.*?[^?])?>/s] matches [<math><mi>] (its optional group is greedy
    and swallows the [>] of the bare tag), so the [mstyle] opening tag lands
    after [<mi>], not immediately after [<math>]. *)
Theorem MathML_styled_text_bare_math_tag :
  MathML_styled_text (js "<math><mi>x</mi></math>") (js "#ff0000")
  = js "<math><mi>" ++ mstyle_open (js "#ff0000") ++ js "x</mi></mstyle></math>" /\
  MathML_styled_text (js "<math><mi>x</mi></math>") (js "#ff0000")
  <> js "<math>" ++ mstyle_open (js "#ff0000") ++ js "<mi>x</mi></mstyle></math>".
Proof.
  split; vm_compute; [reflexivity | discriminate].
Qed.

(** ** C4 *)

Lemma fold_left_Qmax_compat (l : list Q) (a b : Q) :
  a == b -> fold_left Qmax l a == fold_left Qmax l b.
Proof.
  revert a b; induction l as [|x r IH]; intros a b E; simpl; [exact E|].
  apply IH; rewrite E; reflexivity.
Qed.

Lemma container_size_fold (sv : Services) (items : list gbox) (w h : Q) :
  (fix go (l : list gbox) (w h : Q) : Size :=
     match l with
     | [] => mkSize w h
     | item :: r => let s := gbox__size sv item in go r (w + width s) (Qmax h (height s))
     end) items w h
  = mkSize (fold_left Qplus (map (fun i => width (gbox__size sv i)) items) w)
           (fold_left Qmax (map (fun i => height (gbox__size sv i)) items) h).
Proof.
  revert w h; induction items as [|i r IH]; intros w h; simpl; [reflexivity|].
  apply IH.
Qed.

Lemma fold_left_Qplus_shift (l : list Q) (w : Q) :
  fold_left Qplus l w == w + fold_right Qplus 0 l.
Proof.
  revert w; induction l as [|x r IH]; intros w; simpl.
  - ring.
  - rewrite IH; ring.
Qed.

Lemma fold_left_Qmax_out (l : list Q) (a b : Q) :
  fold_left Qmax l (Qmax a b) == Qmax a (fold_left Qmax l b).
Proof.
  revert b; induction l as [|x r IH]; intros b; simpl; [reflexivity|].
  rewrite (fold_left_Qmax_compat r _ (Qmax a (Qmax b x))) by (symmetry; apply Q.max_assoc).
  apply IH.
Qed.

Lemma max_nonempty_ge (h0 x : Q) (hs : list Q) :
  In x (h0 :: hs) -> x <= max_nonempty h0 hs.
Proof.
  unfold max_nonempty. revert h0 x; induction hs as [|y r IH]; intros h0 x Hin; simpl.
  - destruct Hin as [->|[]]. apply Qle_refl.
  - destruct Hin as [->|[->|Hin]].
    + apply (Qle_trans _ (Qmax x y)); [apply Q.le_max_l|]. apply IH; left; reflexivity.
    + apply (Qle_trans _ (Qmax h0 x)); [apply Q.le_max_r|]. apply IH; left; reflexivity.
    + apply IH; right; exact Hin.
Qed.

(** C4 (amended): for a non-empty item list, the container's [_size()] has
    as width the sum of the items' [_size()] widths and as height the
    maximum of 0 and the items' [_size()] heights ([Math.max] folded from
    0), which is the largest item height whenever some item height is
    non-negative. *)
Theorem GraphicsContainer__size_sum_max (sv : Services) (c : Common) (i0 : gbox) (rest : list gbox) :
  width (gbox__size sv (GraphicsContainer c (i0 :: rest)))
    == fold_right Qplus 0 (map (fun i => width (gbox__size sv i)) (i0 :: rest)) /\
  height (gbox__size sv (GraphicsContainer c (i0 :: rest)))
    == Qmax 0 (max_nonempty (height (gbox__size sv i0)) (map (fun i => height (gbox__size sv i)) rest)) /\
  ((exists i, In i (i0 :: rest) /\ 0 <= height (gbox__size sv i)) ->
   height (gbox__size sv (GraphicsContainer c (i0 :: rest)))
     == max_nonempty (height (gbox__size sv i0)) (map (fun i => height (gbox__size sv i)) rest)).
Proof.
  assert (Hh : height (gbox__size sv (GraphicsContainer c (i0 :: rest)))
    == Qmax 0 (max_nonempty (height (gbox__size sv i0)) (map (fun i => height (gbox__size sv i)) rest))).
  { change (gbox__size sv (GraphicsContainer c (i0 :: rest)))
      with ((fix go (l : list gbox) (w h : Q) : Size :=
               match l with
               | [] => mkSize w h
               | item :: r => let s := gbox__size sv item in go r (w + width s) (Qmax h (height s))
               end) (i0 :: rest) 0 0).
    rewrite container_size_fold; simpl. unfold max_nonempty. apply fold_left_Qmax_out. }
  split; [|split; [exact Hh|]].
  - change (gbox__size sv (GraphicsContainer c (i0 :: rest)))
      with ((fix go (l : list gbox) (w h : Q) : Size :=
               match l with
               | [] => mkSize w h
               | item :: r => let s := gbox__size sv item in go r (w + width s) (Qmax h (height s))
               end) (i0 :: rest) 0 0).
    rewrite container_size_fold; simpl. rewrite fold_left_Qplus_shift; ring.
  - intros (i & Hin & Hnn). rewrite Hh. apply Q.max_r.
    apply (Qle_trans _ _ _ Hnn). apply max_nonempty_ge.
    change (height (gbox__size sv i0) :: map (fun i => height (gbox__size sv i)) rest)
      with (map (fun i => height (gbox__size sv i)) (i0 :: rest)).
    exact (in_map (fun j => height (gbox__size sv j)) _ _ Hin).
Qed.

(** ** C5 *)

Lemma set_positions_container (sv : Services) (c : Common) (items : list gbox) (ps : list Position) :
  set_positions sv (GraphicsContainer c items) ps =
  match items, ps with
  | [], _ :: _ => None
  | _, _ =>
      match mapi_from (fun item k => set_positions sv item (container_for_item sv c items ps k))
              items 0 with
      | None => None
      | Some items' => Some (GraphicsContainer (fold_left set_c_position ps c) items')
      end
  end.
Proof. reflexivity. Qed.

Lemma mapi_from_none (f : gbox -> nat -> option gbox) (l : list gbox) (k : nat) :
  mapi_from f l k = None <->
  exists j item, nth_error l j = Some item /\ f item (k + j)%nat = None.
Proof.
  revert k; induction l as [|i r IH]; intros k; simpl.
  - split; [discriminate|]. intros (j & item & Hj & _). destruct j; discriminate.
  - destruct (f i k) as [i'|] eqn:Ei.
    + destruct (mapi_from f r (S k)) as [r'|] eqn:Er.
      * split; [discriminate|]. intros (j & item & Hj & Hf).
        destruct j as [|j]; simpl in Hj.
        -- injection Hj as <-. rewrite Nat.add_0_r in Hf. congruence.
        -- assert (Hn : mapi_from f r (S k) = None).
           { apply IH. exists j, item. split; [exact Hj|].
             rewrite <- Hf. f_equal. lia. }
           congruence.
      * split; [intros _|reflexivity].
        destruct (proj1 (IH (S k)) Er) as (j & item & Hj & Hf).
        exists (S j), item. split; [exact Hj|]. rewrite <- Hf. f_equal. lia.
    + split; [intros _|reflexivity].
      exists 0%nat, i. split; [reflexivity|]. rewrite Nat.add_0_r. exact Ei.
Qed.


Lemma items_positions_nonempty (p : Position) (ya : YAnchor) (csize : Size) (first : bool)
    (cur prev : Q) (sizes : list Size) (k : nat) :
  (k < List.length sizes)%nat -> nth k (items_positions p ya csize first cur prev sizes) [] <> [].
Proof.
  revert first cur prev k; induction sizes as [|s r IH]; intros first cur prev k H;
    simpl in H; [lia|].
  destruct k as [|k]; simpl.
  - destruct first; discriminate.
  - apply IH; lia.
Qed.

Lemma container_for_item_nil (sv : Services) (c : Common) (items : list gbox)
    (ps : list Position) (k : nat) :
  (k < List.length items)%nat -> (container_for_item sv c items ps k = [] <-> ps = []).
Proof.
  intros Hk. unfold container_for_item. cbv zeta.
  destruct ps as [|p r]; simpl; [split; reflexivity|].
  split; [|discriminate]. intros H. apply app_eq_nil in H. destruct H as [H _].
  exfalso; revert H. apply items_positions_nonempty. rewrite length_map; exact Hk.
Qed.

(** Positioning raises exactly when it is called and the box is or
    contains a container without items. *)
Lemma set_positions_none (sv : Services) (b : gbox) :
  forall ps, set_positions sv b ps = None <-> ps <> [] /\ has_empty_container b = true.
Proof.
  induction b as [c t | c t i | c base expo IHb IHe | c items IH] using gbox_ind'; intros ps.
  - simpl. split; [discriminate|intros [_ H]; discriminate].
  - simpl. split; [discriminate|intros [_ H]; discriminate].
  - cbn [set_positions has_empty_container]. cbv zeta. rewrite Bool.orb_true_iff.
    match goal with |- context [set_positions sv base ?l1] =>
      match goal with |- context [set_positions sv expo ?l2] =>
        assert (H1 : l1 <> [] <-> ps <> [])
          by (destruct ps; simpl; split; intro; (assumption || discriminate));
        assert (H2 : l2 <> [] <-> ps <> [])
          by (destruct ps; simpl; split; intro; (assumption || discriminate));
        pose proof (IHb l1) as Ib; pose proof (IHe l2) as Ie;
        destruct (set_positions sv base l1) as [base'|];
        [destruct (set_positions sv expo l2) as [expo'|]|]
      end end.
    + split; [discriminate|]. intros [Hp [Hb|He]].
      * pose proof (proj2 Ib (conj (proj2 H1 Hp) Hb)) as X; discriminate X.
      * pose proof (proj2 Ie (conj (proj2 H2 Hp) He)) as X; discriminate X.
    + split; [intros _|reflexivity]. destruct (proj1 Ie eq_refl) as [Hp He].
      split; [exact (proj1 H2 Hp)|right; exact He].
    + split; [intros _|reflexivity]. destruct (proj1 Ib eq_refl) as [Hp Hb].
      split; [exact (proj1 H1 Hp)|left; exact Hb].
  - rewrite set_positions_container. destruct items as [|i0 r].
    + destruct ps as [|p ps']; simpl.
      * split; [discriminate|intros [H _]; contradiction H; reflexivity].
      * split; [intros _; split; [discriminate|reflexivity]|reflexivity].
    + change (has_empty_container (GraphicsContainer c (i0 :: r)))
        with (existsb has_empty_container (i0 :: r)).
      assert (Key : mapi_from (fun item k => set_positions sv item (container_for_item sv c (i0 :: r) ps k))
                      (i0 :: r) 0 = None <->
                    ps <> [] /\ existsb has_empty_container (i0 :: r) = true).
      { rewrite mapi_from_none, existsb_exists. rewrite Forall_forall in IH. split.
        - intros (j & item & Hj & Hf). simpl in Hf.
          assert (Hin : In item (i0 :: r)) by (eapply nth_error_In; exact Hj).
          assert (Hlt : (j < List.length (i0 :: r))%nat)
            by (apply nth_error_Some; rewrite Hj; discriminate).
          destruct (proj1 (IH item Hin _) Hf) as [Hne Hh].
          split; [|exists item; split; assumption].
          intros Hps. apply Hne. apply (container_for_item_nil sv c (i0 :: r) ps j Hlt). exact Hps.
        - intros [Hp (item & Hin & Hh)].
          destruct (In_nth_error _ _ Hin) as [j Hj].
          assert (Hlt : (j < List.length (i0 :: r))%nat)
            by (apply nth_error_Some; rewrite Hj; discriminate).
          exists j, item. split; [exact Hj|]. simpl.
          apply (IH item Hin). split; [|exact Hh].
          intros Hn. apply Hp. apply (container_for_item_nil sv c (i0 :: r) ps j Hlt). exact Hn. }
      destruct (mapi_from _ (i0 :: r) 0) as [items'|].
      * split; [discriminate|]. intros H. pose proof (proj2 Key H) as X; discriminate X.
      * split; [intros _; apply Key; reflexivity|reflexivity].
Qed.

Lemma set_positions_common (sv : Services) (b : gbox) (ps : list Position) (b' : gbox) :
  set_positions sv b ps = Some b' -> common_of b' = fold_left set_c_position ps (common_of b).
Proof.
  intros H. destruct b as [c t | c t i | c base expo | c items].
  - injection H as <-. reflexivity.
  - injection H as <-. reflexivity.
  - cbn [set_positions] in H. cbv zeta in H.
    destruct (set_positions sv base _) as [base'|]; [|discriminate].
    destruct (set_positions sv expo _) as [expo'|]; [|discriminate].
    injection H as <-. reflexivity.
  - rewrite set_positions_container in H.
    destruct items as [|i0 r]; [destruct ps as [|p ps']; [|discriminate]|];
      (destruct (mapi_from _ _ 0) as [items'|]; [|discriminate]);
      injection H as <-; reflexivity.
Qed.

Lemma set_position_position (sv : Services) (b : gbox) (p : Position) (b' : gbox) :
  set_position sv b p = Some b' -> c_position (common_of b') = p.
Proof.
  intros H. rewrite (set_positions_common sv b [p] b' H). destruct (common_of b); reflexivity.
Qed.

Lemma Qmax_compat_eq (a a' b b' : Q) : a == a' -> b == b' -> Qmax a b == Qmax a' b'.
Proof. intros E F; rewrite E, F; reflexivity. Qed.

(** C5 (amended): with [bs = base.size()], [es = expo.size()] and
    [shift = _shift_scale() × bs.height], where [_shift_scale()] is the
    [x_height/cap_height] of the base's font for a single-line [TextBox]
    (or [ImageTextBox]) base and [2/3] otherwise: [_size()] is
    [{bs.width + es.width, max(bs.height, shift + es.height)}]. Setting
    [position] raises when the base or the exponent is or contains a
    [GraphicsContainer] without items; otherwise it anchors the base
    bottom-left at [(0, max(...))] and the exponent bottom-left at
    [(bs.width, shift)]. A base of height 10 with scale 0.6 and an exponent
    of height 8 give height 14. *)
Theorem BaseExpo_layout (sv : Services) (c : Common) (base expo : gbox) (p : Position) :
  let bs := gbox_size sv base in
  let es := gbox_size sv expo in
  let shift := BaseExpo__shift_scale sv base * height bs in
  let h := Qmax (height bs) (shift + height es) in
  (BaseExpo__shift_scale sv base =
     match base with
     | TextBox _ t | ImageTextBox _ t _ =>
         if Nat.eqb (nlines t) 1
         then fm_x_height (font_metrics sv (font t)) / fm_cap_height (font_metrics sv (font t))
         else 2 # 3
     | _ => 2 # 3
     end) /\
  gbox__size sv (BaseExpo c base expo) = mkSize (width bs + width es) h /\
  (set_position sv (BaseExpo c base expo) p = None <->
     has_empty_container base = true \/ has_empty_container expo = true) /\
  (match set_position sv (BaseExpo c base expo) p with
   | Some (BaseExpo c' base' expo') =>
       c_position c' = p /\
       c_position (common_of base') = mkPosition 0 h (Some XLeft) (Some YBottom) /\
       c_position (common_of expo') = mkPosition (width bs) shift (Some XLeft) (Some YBottom)
   | Some _ => False
   | None => True
   end) /\
  (height bs == 10 -> BaseExpo__shift_scale sv base == 3 # 5 -> height es == 8 ->
   height (gbox__size sv (BaseExpo c base expo)) == 14).
Proof.
  intros bs es shift h.
  split; [destruct base; reflexivity|].
  split; [reflexivity|].
  split.
  { unfold set_position. rewrite set_positions_none. cbn [has_empty_container].
    rewrite Bool.orb_true_iff. split; [intros [_ H]; exact H|intros H; split; [discriminate|exact H]]. }
  split.
  - unfold set_position. cbn [set_positions map]. fold bs es shift h.
    destruct (set_positions sv base [mkPosition 0 h (Some XLeft) (Some YBottom)])
      as [base'|] eqn:Eb; [|exact I].
    destruct (set_positions sv expo [mkPosition (width bs) shift (Some XLeft) (Some YBottom)])
      as [expo'|] eqn:Ee; [|exact I].
    split; [reflexivity|].
    split; [exact (set_position_position sv _ _ _ Eb)|exact (set_position_position sv _ _ _ Ee)].
  - intros Hb Hs He.
    change (height (gbox__size sv (BaseExpo c base expo)))
      with (Qmax (height bs) (BaseExpo__shift_scale sv base * height bs + height es)).
    rewrite (Qmax_compat_eq _ _ _ _ Hb (Qplus_comp _ _ (Qmult_comp _ _ Hs _ _ Hb) _ _ He)).
    reflexivity.
Qed.

(** ** C8 *)

Lemma set_visuals_at_infer (sv : Services) (b : gbox) :
  forall s v b', set_visuals_at sv b s v = Some b' -> infer_text_height b' = infer_text_height b.
Proof.
  induction b as [c t | c t i | c base IHb expo IHe | c items];
    intros s v b' H; simpl in H.
  - injection H as <-; reflexivity.
  - injection H as <-; reflexivity.
  - destruct (set_visuals_at sv base None v) as [base'|] eqn:E1; [|discriminate].
    destruct (set_visuals_at sv expo (Some (7 # 10)) v) as [expo'|]; [|discriminate].
    injection H as <-; simpl; eapply IHb; exact E1.
  - destruct (all_some _); [|discriminate].
    destruct (max_by _ _); [|discriminate].
    injection H as <-; reflexivity.
Qed.

Lemma all_some_map {A B} (f : A -> option B) (l : list A) (l' : list B) :
  all_some (map f l) = Some l' -> Forall2 (fun a b => f a = Some b) l l'.
Proof.
  revert l'; induction l as [|a r IH]; intros l' H; simpl in H.
  - injection H as <-; constructor.
  - destruct (f a) as [b|] eqn:E; [|discriminate].
    destruct (all_some (map f r)) as [r'|] eqn:E2; [|discriminate].
    injection H as <-; constructor; [exact E | apply IH; reflexivity].
Qed.

Lemma max_by_fold_spec {A} (key : A -> Z) (r : list A) (x : A) :
  let m := fold_left (fun best y => if Z.ltb (key best) (key y) then y else best) r x in
  (m = x \/ In m r) /\ (key x <= key m)%Z /\ (forall y, In y r -> (key y <= key m)%Z).
Proof.
  revert x; induction r as [|y r IH]; intros x; simpl.
  - split; [left; reflexivity|split; [lia|intros y []]].
  - destruct (Z.ltb (key x) (key y)) eqn:E.
    + apply Z.ltb_lt in E.
      destruct (IH y) as (Hin & Hy & Hall).
      split; [destruct Hin as [Heq|Hin]; right; [left; symmetry; exact Heq|right; exact Hin]|].
      split; [lia|]. intros z [<-|Hz]; [exact Hy|apply Hall, Hz].
    + apply Z.ltb_ge in E.
      destruct (IH x) as (Hin & Hx & Hall).
      split; [destruct Hin as [Hin|Hin]; [left; exact Hin|right; right; exact Hin]|].
      split; [exact Hx|]. intros z [<-|Hz]; [lia|apply Hall, Hz].
Qed.

Lemma max_by_spec {A} (key : A -> Z) (l : list A) (m : A) :
  max_by key l = Some m -> In m l /\ (forall y, In y l -> (key y <= key m)%Z).
Proof.
  destruct l as [|x r]; simpl; [discriminate|].
  intros H; injection H as <-.
  destruct (max_by_fold_spec key r x) as (Hin & Hx & Hall).
  split.
  - destruct Hin as [->|Hin]; [left; reflexivity|right; exact Hin].
  - intros y [<-|Hy]; [exact Hx|apply Hall, Hy].
Qed.

(** C8: after a successful [visuals] assignment on a container with a
    non-empty item list, every item's [text_height_metric] is one and the
    same classification: the item's [infer_text_height()] of maximum rank
    under [x < cap < ascent < x_descent < cap_descent < ascent_descent]. *)
Theorem GraphicsContainer_visuals_common_metric (sv : Services) (c : Common)
    (items : list gbox) (v : TextVisuals) (b' : gbox) :
  items <> [] ->
  set_visuals sv (GraphicsContainer c items) v = Some b' ->
  exists m,
    In m (map infer_text_height items) /\
    (forall m', In m' (map infer_text_height items) -> (metric_rank m' <= metric_rank m)%Z) /\
    match b' with
    | GraphicsContainer _ items' =>
        List.length items' = List.length items /\
        forall i, In i items' -> c_text_height_metric (common_of i) = Some m
    | _ => False
    end.
Proof.
  intros _ H; unfold set_visuals in H; simpl in H.
  destruct (all_some (map (fun item => set_visuals_at sv item None v) items)) as [items1|] eqn:E;
    [|discriminate].
  pose proof (all_some_map _ _ _ E) as E2.
  assert (Hinf : map infer_text_height items1 = map infer_text_height items).
  { clear -E2; induction E2 as [|a b l l' Hab _ IH]; simpl; [reflexivity|].
    rewrite IH, (set_visuals_at_infer sv a None v b Hab); reflexivity. }
  destruct (max_by metric_rank (map infer_text_height items1)) as [m|] eqn:M; [|discriminate].
  injection H as <-.
  rewrite Hinf in M; apply max_by_spec in M as (Hin & Hmax).
  exists m; split; [exact Hin|]; split; [exact Hmax|].
  split.
  - rewrite length_map; symmetry; exact (Forall2_length E2).
  - intros i Hi; apply in_map_iff in Hi as (j & <- & _).
    destruct j; reflexivity.
Qed.

(** ** C1 *)

Module PipelineFacts.
Import Pipeline.

Lemma has_images_loaded_false (v : View) (b : nat) :
  In (PImage b) (items v) -> image_of v b = None -> has_images_loaded v = false.
Proof.
  intros Hin Himg; unfold has_images_loaded.
  destruct (forallb _ (items v)) eqn:E; [|reflexivity].
  rewrite forallb_forall in E; specialize (E _ Hin); simpl in E.
  rewrite Himg in E; discriminate.
Qed.

Lemma load_image_converts (pt : nat -> option nat) (v : View) (b svg : nat) :
  status v = Ready -> has_finished v = false -> has_images_loaded v = false ->
  pt b = Some svg ->
  load_image pt v b =
    {| status := status v; items := items v; images := images v;
       has_finished := has_finished v; ready_handlers := ready_handlers v;
       in_flight := in_flight v ++ [mkPending b (next_url v) svg];
       live_urls := live_urls v ++ [next_url v]; next_url := S (next_url v);
       log := log v ++ [ECreateURL (next_url v)] |}.
Proof.
  intros Hs Hf Hl Hp; unfold load_image.
  rewrite Hl, Hs, Hf; simpl; rewrite Hp; reflexivity.
Qed.

Lemma paint_no_image (pt : nat -> option nat) (v : View) (b : nat) :
  image_of v b = None -> paint pt v b = load_image pt v b.
Proof. intros H; unfold paint; rewrite H; reflexivity. Qed.

Lemma load_image_failed_ascii (v : View) (b : nat) :
  status v = Failed ->
  load_image ascii_process_text v b = emit (set_finished v true) ENotifyFinished.
Proof.
  intros Hs; unfold load_image; rewrite Hs; simpl.
  rewrite Bool.andb_false_r, Bool.andb_true_r.
  destruct (has_finished v); reflexivity.
Qed.

Lemma count_notify_app (l l' : list effect) :
  count_notify (l ++ l') = (count_notify l + count_notify l')%nat.
Proof. unfold count_notify; rewrite filter_app, length_app; reflexivity. Qed.

End PipelineFacts.

(** C1 (as stated, refuted): with the provider ready and a conversion that
    yields an SVG, painting an image box twice before its decode settles
    leaves two conversions of that box in flight. *)
Lemma paint_twice_two_conversions_in_flight :
  let v := Pipeline.mkView Pipeline.Ready [Pipeline.PImage 0] [] false [] [] [] 0 [] in
  let v2 := Pipeline.run (fun _ => Some 7%nat) sample_svg_style sample_parse_css_length_returns v
              [Pipeline.Paint 0; Pipeline.Paint 0] in
  Pipeline.in_flight_for v2 0 = 2%nat /\ ~ (Pipeline.in_flight_for v2 0 <= 1)%nat.
Proof.
  vm_compute; split; [reflexivity | lia].
Qed.

(** C1 (amended): [ImageTextBox.paint] calls the loader on every paint while
    the image is [null], with no in-flight guard: when the provider is
    ready, the pipeline is not marked finished and the conversion yields an
    SVG, two paints of a box before its decode settles start two
    conversions (two blob URLs, two pending decodes) for that box. *)
Theorem paint_twice_starts_two_conversions (pt : nat -> option nat)
    (st : nat -> option jsstring) (pcl : option jsstring -> bool) (v : Pipeline.View)
    (b svg : nat) :
  Pipeline.status v = Pipeline.Ready -> Pipeline.has_finished v = false ->
  In (Pipeline.PImage b) (Pipeline.items v) -> Pipeline.image_of v b = None ->
  pt b = Some svg ->
  let v2 := Pipeline.run pt st pcl v [Pipeline.Paint b; Pipeline.Paint b] in
  Pipeline.in_flight_for v2 b = (Pipeline.in_flight_for v b + 2)%nat /\
  Pipeline.log v2 = Pipeline.log v ++ [Pipeline.ECreateURL (Pipeline.next_url v);
                                       Pipeline.ECreateURL (S (Pipeline.next_url v))].
Proof.
  intros Hs Hf Hin Himg Hp v2.
  pose proof (PipelineFacts.has_images_loaded_false v b Hin Himg) as Hl.
  change v2 with (Pipeline.paint pt (Pipeline.paint pt v b) b).
  rewrite (PipelineFacts.paint_no_image pt v b Himg).
  rewrite (PipelineFacts.load_image_converts pt v b svg Hs Hf Hl Hp).
  erewrite PipelineFacts.paint_no_image; [|exact Himg].
  erewrite (PipelineFacts.load_image_converts pt _ b svg);
    [| exact Hs | exact Hf | exact Hl | exact Hp].
  unfold Pipeline.in_flight_for; simpl.
  rewrite <- app_assoc, filter_app, length_app; simpl.
  rewrite Nat.eqb_refl; simpl; split; [lia|].
    rewrite <- app_assoc; reflexivity.
Qed.

(** ** C2 *)
(** C2 (evaluation of the code): in [AsciiView], whose conversion always
    yields nothing (as for a provider that failed to load), with the provider
    [failed] every paint of an image box calls [load_image], and every call
    signals [notify_finished_after_paint]: the first through the
    [failed]-provider branch, later ones through the empty-conversion
    branch, which does not check [_has_finished]. [n] paints signal [n]
    times, and no image is ever assigned. *)
Theorem failed_provider_notifies_each_paint (st : nat -> option jsstring)
    (pcl : option jsstring -> bool) (v : Pipeline.View) (b n : nat) :
  Pipeline.status v = Pipeline.Failed -> Pipeline.image_of v b = None ->
  let v' := Pipeline.run Pipeline.ascii_process_text st pcl v (repeat (Pipeline.Paint b) n) in
  Pipeline.count_notify (Pipeline.log v') = (Pipeline.count_notify (Pipeline.log v) + n)%nat /\
  Pipeline.images v' = Pipeline.images v /\ Pipeline.has_finished v' = (Nat.ltb 0 n || Pipeline.has_finished v)%bool.
Proof.
  revert v; induction n as [|n IH]; intros v Hs Himg v'.
  - subst v'; simpl; rewrite Nat.add_0_r; split; [reflexivity|split; reflexivity].
  - subst v'; unfold Pipeline.run; simpl.
    rewrite (PipelineFacts.paint_no_image _ v b Himg), (PipelineFacts.load_image_failed_ascii v b Hs).
    destruct (IH (Pipeline.emit (Pipeline.set_finished v true) Pipeline.ENotifyFinished) Hs Himg)
      as (Hc & Hi & Hf).
    unfold Pipeline.run in Hc, Hi, Hf; rewrite Hc, Hi, Hf; simpl.
    rewrite PipelineFacts.count_notify_app; simpl.
    change (Pipeline.count_notify [Pipeline.ENotifyFinished]) with 1%nat.
    split; [lia|]. split; [reflexivity|].
    destruct (Nat.ltb 0 n); reflexivity.
Qed.

(** ** C9 *)
(** C9: whenever a pending [load_image(url)] settles, resolved or rejected,
    the first effect of the continuation is [URL.revokeObjectURL(url)], and
    the URL is no longer live afterwards. *)
Theorem resume_load_revokes_url (st : nat -> option jsstring) (pcl : option jsstring -> bool)
    (v : Pipeline.View) (p : Pipeline.pending) (o : Pipeline.decode_outcome) :
  exists rest,
    Pipeline.log (Pipeline.resume_load st pcl v p o)
      = Pipeline.log v ++ Pipeline.ERevokeURL (Pipeline.pd_url p) :: rest /\
    ~ In (Pipeline.pd_url p) (Pipeline.live_urls (Pipeline.resume_load st pcl v p o)).
Proof.
  unfold Pipeline.resume_load; destruct o as [img|]; cbv zeta;
    repeat match goal with |- context [if ?c then _ else _] => destruct c end;
    simpl; eexists; (split; [rewrite <- !app_assoc; reflexivity | apply remove_In]).
Qed.

(* ================================================================== *)
(** * Evaluations of the properties at concrete inputs *)

Lemma TextBox_infer_text_height_cases_witness :
  infer_text_height (sample_text_box "-1.5e3" "A") = THcap /\
  infer_text_height (sample_text_box "12 apples" "A") = THascent_descent.
Proof.
  split.
  - apply (proj1 (proj2 (TextBox_infer_text_height_cases _ _))).
    + intros H; apply includes_unit_spec in H; vm_compute in H; discriminate H.
    + intros u Hu; apply math_like_unit_spec; revert u Hu; apply forallb_forall.
      vm_compute; reflexivity.
  - apply (proj2 (proj2 (TextBox_infer_text_height_cases _ _))).
    + intros H; apply includes_unit_spec in H; vm_compute in H; discriminate H.
    + exists (N_of_ascii "a"); split; [vm_compute; tauto|].
      intros H; apply math_like_unit_spec in H; vm_compute in H; discriminate H.
Defined.

Lemma parse_math_parts_no_span_witness :
  parse_math_parts true [] (js "x+1") = [new_TextBox (js "x+1")].
Proof.
  apply (proj1 (parse_math_parts_no_span (js "x+1"))); discriminate.
Defined.

Lemma GraphicsContainer__size_sum_max_witness :
  let items := [sample_text_box "ab" "A"; sample_text_box "1" "B"] in
  width (gbox__size sample_services (GraphicsContainer default_common items)) == 3 /\
  height (gbox__size sample_services (GraphicsContainer default_common items)) == 10.
Proof.
  intros items.
  destruct (GraphicsContainer__size_sum_max sample_services default_common
              (sample_text_box "ab" "A") [sample_text_box "1" "B"]) as [Hw [_ Hh]].
  split.
  - rewrite Hw; vm_compute; reflexivity.
  - rewrite Hh; [vm_compute; reflexivity|].
    exists (sample_text_box "ab" "A"). split; [left; reflexivity|].
    apply Qle_bool_imp_le; vm_compute; reflexivity.
Defined.

Lemma BaseExpo_layout_witness :
  height (gbox__size sample_services
            (BaseExpo default_common (sample_text_box "a" "A") (sample_text_box "b" "B"))) == 14.
Proof.
  destruct (BaseExpo_layout sample_services default_common (sample_text_box "a" "A")
              (sample_text_box "b" "B") (mkPosition 0 0 None None)) as (_ & _ & _ & _ & H).
  apply H; vm_compute; reflexivity.
Defined.

(** C4 (as stated, refuted): a [TextBox] with [line_height] -1 and the
    three lines of 'a\nb\nc' has a negative [_size()] height; a container
    holding only it reports height 0 ([Math.max] folded from 0), not the
    maximum child height. *)
Lemma GraphicsContainer_negative_item_height :
  let item := TextBox default_common
                (mkTextFields (js "a" ++ [cu_newline] ++ js "b" ++ [cu_newline] ++ js "c")
                              "" "A" (-1) XLeft) in
  height (gbox__size sample_services item) < 0 /\
  height (gbox__size sample_services (GraphicsContainer default_common [item])) == 0 /\
  ~ height (gbox__size sample_services (GraphicsContainer default_common [item]))
    == height (gbox__size sample_services item).
Proof.
  intros item. split; [|split].
  - vm_compute; reflexivity.
  - vm_compute; reflexivity.
  - vm_compute; discriminate.
Qed.

(** C5 (as stated, refuted): setting the position of a [BaseExpo] whose
    base is a [GraphicsContainer] without items does not anchor anything:
    the container's [position] setter reads [items[0]._size()] and raises. *)
Lemma BaseExpo_empty_base_position_raises :
  set_position sample_services
    (BaseExpo default_common (GraphicsContainer default_common []) (sample_text_box "2" "A"))
    (mkPosition 0 0 None None) = None.
Proof. reflexivity. Qed.

Lemma GraphicsContainer_visuals_common_metric_witness :
  match set_visuals sample_services
          (GraphicsContainer default_common [sample_text_box "12" "A"; sample_text_box "ab" "A"])
          sample_visuals with
  | Some b' =>
      exists m,
        In m (map infer_text_height [sample_text_box "12" "A"; sample_text_box "ab" "A"]) /\
        (forall m', In m' (map infer_text_height [sample_text_box "12" "A"; sample_text_box "ab" "A"]) ->
                    (metric_rank m' <= metric_rank m)%Z) /\
        match b' with
        | GraphicsContainer _ items' =>
            List.length items' = 2%nat /\
            forall i, In i items' -> c_text_height_metric (common_of i) = Some m
        | _ => False
        end
  | None => False
  end.
Proof.
  destruct (set_visuals sample_services
              (GraphicsContainer default_common [sample_text_box "12" "A"; sample_text_box "ab" "A"])
              sample_visuals) as [b'|] eqn:E.
  - apply (GraphicsContainer_visuals_common_metric sample_services default_common
             [sample_text_box "12" "A"; sample_text_box "ab" "A"] sample_visuals b');
      [discriminate | exact E].
  - vm_compute in E; discriminate E.
Defined.

Lemma paint_twice_starts_two_conversions_witness :
  let v2 := Pipeline.run (fun _ => Some 7%nat) sample_svg_style sample_parse_css_length_returns
              (sample_view Pipeline.Ready) [Pipeline.Paint 0; Pipeline.Paint 0] in
  Pipeline.in_flight_for v2 0 = 2%nat.
Proof.
  refine (proj1 (paint_twice_starts_two_conversions (fun _ => Some 7%nat) sample_svg_style
                   sample_parse_css_length_returns (sample_view Pipeline.Ready) 0 7 _ _ _ _ _)).
  - reflexivity.
  - reflexivity.
  - left; reflexivity.
  - reflexivity.
  - reflexivity.
Defined.

Lemma failed_provider_notifies_each_paint_witness :
  Pipeline.count_notify
    (Pipeline.log (Pipeline.run Pipeline.ascii_process_text sample_svg_style
                     sample_parse_css_length_returns (sample_view Pipeline.Failed)
                     [Pipeline.Paint 0; Pipeline.Paint 0])) = 2%nat.
Proof.
  refine (proj1 (failed_provider_notifies_each_paint sample_svg_style sample_parse_css_length_returns
                   (sample_view Pipeline.Failed) 0 2 _ _));
    reflexivity.
Defined.

(* ================================================================== *)
(** * Further properties of the code *)

(** ** Structure of the setters *)





Lemma container_size_map (sv : Services) (c : Common) (items : list gbox) :
  gbox__size sv (GraphicsContainer c items) =
  mkSize (fold_left Qplus (map width (map (gbox__size sv) items)) 0)
         (fold_left Qmax (map height (map (gbox__size sv) items)) 0).
Proof.
  cbn [gbox__size]. rewrite container_size_fold, !map_map. reflexivity.
Qed.





Lemma subboxes_go (l : list gbox) :
  (fix go (l : list gbox) : list gbox :=
     match l with [] => [] | item :: r => subboxes item ++ go r end) l
  = List.concat (map subboxes l).
Proof. induction l as [|i r IH]; simpl; [reflexivity|]. rewrite IH; reflexivity. Qed.

(** The [base_font_size] setters cascade through [BaseExpo] and
    [GraphicsContainer]: [null] changes nothing anywhere, and a number
    reaches every box of the tree. *)
Theorem set_base_font_size_cascade (b : gbox) :
  set_base_font_size b None = b /\
  forall q x, In x (subboxes (set_base_font_size b (Some q))) -> c_base_font_size (common_of x) = q.
Proof.
  induction b as [c t | c t i | c base expo IHb IHe | c items IH] using gbox_ind'.
  - split; [reflexivity|]. intros q x [<-|[]]; reflexivity.
  - split; [reflexivity|]. intros q x [<-|[]]; reflexivity.
  - destruct IHb as [Nb Sb], IHe as [Ne Se]. split.
    + simpl. rewrite Nb, Ne. reflexivity.
    + intros q x Hx. simpl in Hx. destruct Hx as [<-|Hx]; [reflexivity|].
      apply in_app_or in Hx. destruct Hx as [Hx|Hx]; [exact (Sb q x Hx)|exact (Se q x Hx)].
  - rewrite Forall_forall in IH. split.
    + simpl. f_equal. rewrite <- (map_id items) at 2. apply map_ext_in.
      intros item Hin. exact (proj1 (IH item Hin)).
    + intros q x Hx. simpl in Hx. destruct Hx as [<-|Hx]; [reflexivity|].
      rewrite subboxes_go in Hx. apply in_concat in Hx. destruct Hx as [l [Hl Hx]].
      apply in_map_iff in Hl. destruct Hl as [i' [<- Hi']].
      apply in_map_iff in Hi'. destruct Hi' as [i [<- Hi]].
      exact (proj2 (IH i Hi) q x Hx).
Qed.

Lemma set_angle_size (sv : Services) (b : gbox) (a : Q) :
  gbox__size sv (set_angle b a) = gbox__size sv b.
Proof.
  induction b as [c t | c t i | c base expo IHb IHe | c items IH] using gbox_ind'; try reflexivity.
  cbn [set_angle]. rewrite !container_size_map.
  assert (E : map (gbox__size sv) (map (fun item => set_angle item a) items) = map (gbox__size sv) items).
  { rewrite map_map. apply map_ext_in. rewrite Forall_forall in IH. exact IH. }
  rewrite E. reflexivity.
Qed.

Lemma common_of_set_angle (b : gbox) (a : Q) :
  c_angle (common_of (set_angle b a)) = Some a.
Proof. destruct b; reflexivity. Qed.

(** Setting [angle] rotates a box without changing its [_size()]:
    [size()] becomes [_size()] rotated by the angle. A
    [GraphicsContainer] passes the angle to every item; a [BaseExpo] keeps
    it and leaves base and exponent unrotated. *)
Theorem set_angle_rotates_without_resizing (sv : Services) (b : gbox) (a : Q) :
  gbox__size sv (set_angle b a) = gbox__size sv b /\
  gbox_size sv (set_angle b a) = rotated_size sv (Some a) (gbox__size sv b) /\
  match b, set_angle b a with
  | GraphicsContainer _ _, GraphicsContainer c' items' =>
      c_angle c' = Some a /\ Forall (fun i => c_angle (common_of i) = Some a) items'
  | BaseExpo _ base expo, BaseExpo c' base' expo' =>
      c_angle c' = Some a /\ base' = base /\ expo' = expo
  | _, _ => True
  end.
Proof.
  split; [apply set_angle_size|]. split.
  - unfold gbox_size. rewrite common_of_set_angle, set_angle_size. reflexivity.
  - destruct b as [c t | c t i | c base expo | c items]; try exact I.
    + split; [reflexivity|]. split; reflexivity.
    + split; [reflexivity|]. cbn [set_angle]. apply Forall_forall.
      intros i Hi. apply in_map_iff in Hi. destruct Hi as [i0 [<- _]].
      apply common_of_set_angle.
Qed.

(** ** [parse_math_parts] *)

(** With MathJax loaded, the image boxes produced are exactly one fresh
    [ImageTextBox] (no image yet) per span found by [find_tex], carrying
    the span's [math], in the order of the spans; the other items are
    text boxes. *)
Theorem parse_math_parts_one_image_box_per_span (tex_parts : list TexPart) (text : jsstring) :
  filter is_image_box (parse_math_parts true tex_parts text) =
  map (fun part => new_ImageTextBox (tp_math part)) tex_parts.
Proof.
  unfold parse_math_parts. simpl negb. cbv iota.
  generalize 0%nat as last_index.
  induction tex_parts as [|part r IH]; intros last_index.
  - destruct (Nat.ltb last_index (List.length text)); reflexivity.
  - rewrite filter_app. simpl map.
    destruct (js_slice text last_index (tp_start part)); simpl; rewrite IH; reflexivity.
Qed.

(** Every item produced is a non-empty [TextBox] or a fresh
    [ImageTextBox], both with the default box fields: the parser never
    emits an empty text box, whatever the spans. *)
Theorem parse_math_parts_items (has_mathjax : bool) (tex_parts : list TexPart) (text : jsstring)
    (b : gbox) :
  In b (parse_math_parts has_mathjax tex_parts text) ->
  (exists t, t <> [] /\ b = new_TextBox t) \/ (exists t, b = new_ImageTextBox t).
Proof.
  unfold parse_math_parts. destruct has_mathjax; simpl negb; cbv iota; [|intros []].
  generalize 0%nat as last_index.
  induction tex_parts as [|part r IH]; intros last_index Hb.
  - destruct (Nat.ltb last_index (List.length text)) eqn:E; [|destruct Hb].
    destruct Hb as [<-|[]]. left. eexists; split; [|reflexivity].
    apply Nat.ltb_lt in E. intros H.
    assert (L : List.length (skipn last_index text) = 0%nat) by (rewrite H; reflexivity).
    rewrite length_skipn in L. lia.
  - apply in_app_or in Hb. destruct Hb as [Hb|[<-|Hb]].
    + destruct (js_slice text last_index (tp_start part)) as [|u us] eqn:E; [destruct Hb|].
      destruct Hb as [<-|[]]. left. exists (u :: us). split; [discriminate|reflexivity].
    + right. eexists; reflexivity.
    + exact (IH _ Hb).
Qed.

(** ** Computed positions *)

(** In [TextBox._computed_position], the named anchors are the numeric
    fractions: [left]/[top] is [0], [center] is [0.5], [right]/[bottom]
    is [1], on both axes. *)
Theorem TextBox_named_anchors_are_fractions (c : Common) (t : TextFields) (s : Size)
    (m : FontMetrics) (nl : nat) (x y : Q) :
  let P xa ya := TextBox__computed_position
                   (set_c_position c (mkPosition x y (Some xa) (Some ya))) t s m nl in
  (fst (P (XNum 0) (YNum 0)) == fst (P XLeft YTop) /\
   snd (P (XNum 0) (YNum 0)) == snd (P XLeft YTop)) /\
  (fst (P (XNum (1 # 2)) (YNum (1 # 2))) == fst (P XCenter YCenter) /\
   snd (P (XNum (1 # 2)) (YNum (1 # 2))) == snd (P XCenter YCenter)) /\
  (fst (P (XNum 1) (YNum 1)) == fst (P XRight YBottom) /\
   snd (P (XNum 1) (YNum 1)) == snd (P XRight YBottom)).
Proof. intros P. unfold P, TextBox__computed_position. simpl. repeat split; ring. Qed.

(** The [baseline] anchor of a [TextBox]: a single line is placed with its
    baseline on the anchor, the ascent of the line's metric above it (the
    one [_text_line] uses); with several lines it falls back to
    [center]. *)
Theorem TextBox_baseline_anchor (c : Common) (t : TextFields) (s : Size)
    (m : FontMetrics) (nl : nat) (x y : Q) (xa : XAnchor) :
  let P ya := TextBox__computed_position
                (set_c_position c (mkPosition x y (Some xa) (Some ya))) t s m nl in
  snd (P YBaseline) =
    if Nat.eqb nl 1 then y - snd (fst (text_line (TextBox_metric c t) m))
    else snd (P YCenter).
Proof.
  intros P. unfold P, TextBox__computed_position. simpl.
  destruct (Nat.eqb nl 1); [|reflexivity].
  unfold TextBox_metric. simpl.
  destruct (match c_text_height_metric c with
            | Some m0 => m0
            | None => TextBox_infer_text_height (text t)
            end); reflexivity.
Qed.

Lemma Qltb_false (a b : Q) : Qltb a b = false <-> b <= a.
Proof.
  unfold Qltb. rewrite <- Qle_bool_iff. destruct (Qle_bool b a); simpl; split; congruence.
Qed.

(** An [ImageTextBox] with its image is never shorter than a line of its
    font: without a percentage height, [_size()] has the image width and
    the larger of the image height and the font height. At that size the
    [v_align] corrections of [_computed_position] for [top] and [bottom]
    never apply. *)
Theorem ImageTextBox_size_and_anchor (sv : Services) (c : Common) (t : TextFields)
    (img : nat) (props : ImageProperties) :
  c_width c = None -> c_height c = None ->
  let m := font_metrics sv (font t) in
  let s := gbox__size sv (ImageTextBox c t (Some (img, props))) in
  let p := c_position c in
  width s == ip_width props /\
  height s == Qmax (ip_height props) (fm_height m) /\
  snd (ImageTextBox__computed_position c (Some (img, props)) s m) =
    sy p - match default (c_y_anchor c) (y_anchor p) with
           | YNum q => q * height s
           | YTop => 0
           | YBottom => height s
           | YCenter | YBaseline => (1 # 2) * height s
           end.
Proof.
  intros Hw Hh m s p.
  assert (Hge : Qltb (height s) (fm_height m) = false).
  { apply Qltb_false. unfold s. simpl. rewrite Hh. unfold pct_scale. rewrite Qmult_1_r.
    fold m. destruct (Qltb (ip_height props) (fm_height m)) eqn:E.
    - apply Qle_refl.
    - apply Qltb_false in E. exact E. }
  split; [unfold s; simpl; rewrite Hw; apply Qmult_1_r|].
  split.
  - unfold s. simpl. rewrite Hh. unfold pct_scale. rewrite Qmult_1_r. fold m.
    destruct (Qltb (ip_height props) (fm_height m)) eqn:E.
    + unfold Qltb in E. apply negb_true_iff in E.
      assert (L : ~ fm_height m <= ip_height props) by (rewrite <- Qle_bool_iff; congruence).
      rewrite Q.max_r; [reflexivity|]. apply Qlt_le_weak, Qnot_le_lt, L.
    + apply Qltb_false in E. rewrite Q.max_l by exact E. reflexivity.
  - unfold ImageTextBox__computed_position. fold p.
    destruct (default (c_y_anchor c) (y_anchor p)); rewrite ?Hge; reflexivity.
Qed.

(** ** [TextBox.paint] *)

Lemma drawn_texts_app (a b : list op) : drawn_texts (a ++ b) = drawn_texts a ++ drawn_texts b.
Proof. unfold drawn_texts. apply flat_map_app. Qed.

Lemma rotate_ops_no_text (c : Common) : drawn_texts (rotate_ops c) = [].
Proof. unfold rotate_ops. destruct (c_angle c); [destruct (angle_truthy _)|]; reflexivity. Qed.

Lemma fill_text_in_drawn (ops : list op) (l : jsstring) (xi yi : Q) :
  In (OFillText l xi yi) ops -> In l (drawn_texts ops).
Proof.
  intros H. unfold drawn_texts. apply in_flat_map. exists (OFillText l xi yi).
  split; [exact H|left; reflexivity].
Qed.

Lemma drawn_plain_lines (sv : Services) a col fnt x y w asc adv lines :
  drawn_texts (plain_lines sv a col fnt x y w asc adv lines) = lines.
Proof.
  revert y; induction lines as [|l r IH]; intros y; simpl; [reflexivity|].
  unfold drawn_texts in *. simpl. f_equal. apply IH.
Qed.

Lemma drawn_justify_words (sv : Services) fnt y sp x words :
  drawn_texts (justify_words sv fnt y sp x words) = words.
Proof.
  revert x; induction words as [|w r IH]; intros x; simpl; [reflexivity|].
  unfold drawn_texts in *. simpl. f_equal. apply IH.
Qed.

Lemma drawn_justify_lines (sv : Services) fnt x y w adv lines :
  drawn_texts (justify_lines sv fnt x y w adv lines) = List.concat (map (split_units cu_space) lines).
Proof.
  revert y; induction lines as [|l r IH]; intros y; simpl; [reflexivity|].
  rewrite drawn_texts_app, IH. unfold justify_line. rewrite drawn_justify_words. reflexivity.
Qed.

(** [TextBox.paint] draws the text's lines, in order, one [fillText] per
    line; under [justify] it draws every word of every line separately,
    splitting each line at the spaces. *)
Theorem TextBox_paint_draws_lines (sv : Services) (c : Common) (t : TextFields) :
  drawn_texts (TextBox_paint sv c t) =
  match c_align c with
  | AJustify => List.concat (map (split_units cu_space) (split_lines (text t)))
  | _ => split_lines (text t)
  end.
Proof.
  unfold TextBox_paint.
  destruct (TextBox_paint_geometry sv c t) as [[s advance] ascent].
  destruct (TextBox__computed_position c t s _ _) as [x y].
  rewrite !drawn_texts_app, rotate_ops_no_text.
  destruct (c_align c);
    rewrite ?drawn_plain_lines, ?drawn_justify_lines; simpl; rewrite app_nil_r; reflexivity.
Qed.

Lemma plain_lines_spec (sv : Services) a col fnt x y w asc adv lines l xi yi :
  In (OFillText l xi yi) (plain_lines sv a col fnt x y w asc adv lines) ->
  xi = x + line_offset a w (text_width sv l fnt) /\
  exists i, (i < List.length lines)%nat /\ nth_error lines i = Some l /\ yi = advance_by adv i y + asc.
Proof.
  revert y; induction lines as [|l0 r IH]; intros y H; [destruct H|].
  destruct H as [H|[H|H]]; [discriminate| |].
  - injection H as <- <- <-. split; [reflexivity|].
    exists 0%nat. split; [simpl; lia|]. split; reflexivity.
  - destruct (IH _ H) as [Hx [i [Hi [Hn Hy]]]]. split; [exact Hx|].
    exists (S i). split; [simpl; lia|]. split; [exact Hn|].
    rewrite Hy. unfold advance_by. rewrite Nat.iter_succ_r. reflexivity.
Qed.



Lemma in_paint_body (c : Common) (t : TextFields) (body : list op) (l : jsstring) (xi yi : Q) :
  In (OFillText l xi yi)
     ([OSave; OFillStyle (color t); OFont (font t); OTextAlign "left"; OTextBaseline "alphabetic"]
      ++ rotate_ops c ++ body ++ [ORestore]) ->
  In (OFillText l xi yi) body.
Proof.
  intros H.
  rewrite !in_app_iff in H. destruct H as [H|[H|[H|H]]]; [| |exact H|].
  - simpl in H. repeat (destruct H as [H|H]; [discriminate|]). destruct H.
  - unfold rotate_ops in H. destruct (c_angle c); [destruct (angle_truthy _)|];
      simpl in H; repeat (destruct H as [H|H]; [discriminate|]); destruct H.
  - destruct H as [H|[]]; discriminate.
Qed.

(** Outside [justify], each line of [TextBox.paint] is placed by the
    alignment ([align], or the visual alignment under [auto]) within the
    box width: left edges on the box's left edge [x], centres on its
    centre, or right edges on its right edge. *)
Theorem TextBox_paint_alignment (sv : Services) (c : Common) (t : TextFields) :
  c_align c <> AJustify ->
  let '(s, _, _) := TextBox_paint_geometry sv c t in
  let x := fst (TextBox__computed_position c t s (font_metrics sv (font t))
                                           (List.length (split_lines (text t)))) in
  forall l xi yi, In (OFillText l xi yi) (TextBox_paint sv c t) ->
  match line_align c t with
  | XRight => xi + text_width sv l (font t) == x + width s
  | XCenter => xi + (1 # 2) * text_width sv l (font t) == x + (1 # 2) * width s
  | _ => xi == x
  end.
Proof.
  intros Hj. unfold TextBox_paint.
  destruct (TextBox_paint_geometry sv c t) as [[s advance] ascent].
  destruct (TextBox__computed_position c t s _ _) as [x y]. simpl fst.
  intros l xi yi H. apply in_paint_body in H.
  assert (H' : In (OFillText l xi yi)
                  (plain_lines sv (line_align c t) (color t) (font t) x y (width s) ascent advance
                               (split_lines (text t)))).
  { destruct (c_align c); [exact H|exact H|exact H|exact H|congruence]. }
  destruct (plain_lines_spec _ _ _ _ _ _ _ _ _ _ _ _ _ H') as [Hx _].
  rewrite Hx. destruct (line_align c t); simpl; ring.
Qed.


Lemma Q_of_nat_S (n : nat) : Q_of_nat (S n) == Q_of_nat n + 1.
Proof. unfold Q_of_nat. rewrite Nat2Z.inj_succ, <- Z.add_1_r, inject_Z_plus. reflexivity. Qed.

Lemma sum_cons (a : Q) (l : list Q) : sum (a :: l) == a + sum l.
Proof. unfold sum. simpl. rewrite !fold_left_Qplus_shift. ring. Qed.

Lemma justify_words_last (sv : Services) fnt y sp (w0 : jsstring) (ws : list jsstring) (x : Q) :
  exists xl,
    last (justify_words sv fnt y sp x (w0 :: ws)) OLoadImage = OFillText (last (w0 :: ws) []) xl y /\
    xl + text_width sv (last (w0 :: ws) []) fnt ==
      x + sum (map (fun w => text_width sv w fnt) (w0 :: ws))
        + (Q_of_nat (List.length (w0 :: ws)) - 1) * sp.
Proof.
  revert w0 x; induction ws as [|w1 r IH]; intros w0 x.
  - exists x. split; [reflexivity|]. unfold sum; simpl. unfold Q_of_nat; simpl. ring.
  - destruct (IH w1 (x + text_width sv w0 fnt + sp)) as [xl [Hl He]].
    exists xl. split.
    + change (justify_words sv fnt y sp x (w0 :: w1 :: r))
        with (OFillText w0 x y :: justify_words sv fnt y sp (x + text_width sv w0 fnt + sp) (w1 :: r)).
      change (last (w0 :: w1 :: r) []) with (last (w1 :: r) []). exact Hl.
    + change (last (w0 :: w1 :: r) []) with (last (w1 :: r) []).
      rewrite He. change (List.length (w0 :: w1 :: r)) with (S (List.length (w1 :: r))).
      rewrite Q_of_nat_S.
      change (map (fun w => text_width sv w fnt) (w0 :: w1 :: r))
        with (text_width sv w0 fnt :: map (fun w => text_width sv w fnt) (w1 :: r)).
      rewrite sum_cons. ring.
Qed.

(** Under [justify], a line of at least two words is spread over the whole
    box width: its first word starts at the left edge [x] and its last
    word ends at [x + width]. *)
Theorem justify_line_fills_width (sv : Services) (fnt : string) (x y w : Q) (line : jsstring) :
  (2 <= List.length (split_units cu_space line))%nat ->
  let words := split_units cu_space line in
  let ops := justify_line sv fnt x y w line in
  hd OLoadImage ops = OFillText (hd [] words) x y /\
  exists xl, last ops OLoadImage = OFillText (last words []) xl y /\
             xl + text_width sv (last words []) fnt == x + w.
Proof.
  intros H. cbv zeta. unfold justify_line.
  destruct (split_units cu_space line) as [|w0 ws]; [simpl in H; lia|].
  split; [reflexivity|].
  set (sp := (w - sum (map (fun word => text_width sv word fnt) (w0 :: ws)))
             / (Q_of_nat (List.length (w0 :: ws)) - 1)).
  destruct (justify_words_last sv fnt y sp w0 ws x) as [xl [Hl He]].
  exists xl. split; [exact Hl|]. rewrite He.
  assert (Hn : ~ Q_of_nat (List.length (w0 :: ws)) - 1 == 0).
  { intros E. assert (L : 2 <= Q_of_nat (List.length (w0 :: ws))).
    { unfold Q_of_nat. change 2 with (inject_Z 2). rewrite <- Zle_Qle. lia. }
    assert (E' : Q_of_nat (List.length (w0 :: ws)) == 1).
    { setoid_replace (Q_of_nat (List.length (w0 :: ws)))
        with ((Q_of_nat (List.length (w0 :: ws)) - 1) + 1) by ring.
      rewrite E. reflexivity. }
    rewrite E' in L. apply L. reflexivity. }
  unfold sp. field. exact Hn.
Qed.

(** [TextBox.paint] lays the text out in the box measured by [_size()],
    except for the empty text: [_size()] reports height [0] for it, while
    [paint] anchors it as one line of the metric's height. *)
Theorem TextBox_paint_geometry_vs_size (sv : Services) (c : Common) (t : TextFields) :
  let '(s, _, _) := TextBox_paint_geometry sv c t in
  width s = width (TextBox__size sv c t) /\
  match text t with
  | [] => height (TextBox__size sv c t) = 0 /\
          height s == fst (fst (text_line (TextBox_metric c t) (font_metrics sv (font t))))
                      * pct_scale (c_height c)
  | _ => height s = height (TextBox__size sv c t)
  end.
Proof.
  unfold TextBox_paint_geometry, TextBox__size, TextBox_metric.
  destruct (text_line _ _) as [[tlh tla] tld].
  destruct (text t) as [|u us] eqn:Et; simpl.
  - split; [reflexivity|]. split; [reflexivity|]. unfold Q_of_nat; simpl. ring.
  - split; reflexivity.
Qed.

(** ** The [load_image] pipeline *)

Module PipelineProps.
Import Pipeline.

Lemma image_of_cons (v : View) (b b' img : nat) (l : list (nat * nat)) :
  images v = (b, img) :: l ->
  image_of v b' = if Nat.eqb b b' then Some img else
                    match find (fun e => Nat.eqb (fst e) b') l with
                    | Some (_, i) => Some i | None => None end.
Proof.
  intros H. unfold image_of. rewrite H. simpl. rewrite Nat.eqb_sym. destruct (Nat.eqb b' b); reflexivity.
Qed.

(** While the provider is still loading and some image is missing, every
    paint of an image box without image connects one more handler to
    [provider.ready]; nothing is converted and no image is set. The same
    box painted [n] times is subscribed [n] times. *)
Theorem paints_while_loading_subscribe_each_time (pt : nat -> option nat)
    (st : nat -> option jsstring) (pcl : option jsstring -> bool) (v : View) (b n : nat) :
  is_pending (status v) = true -> has_images_loaded v = false -> image_of v b = None ->
  let v' := run pt st pcl v (repeat (Paint b) n) in
  ready_handlers v' = ready_handlers v ++ repeat b n /\
  in_flight v' = in_flight v /\ images v' = images v /\
  log v' = log v ++ repeat (EConnectReady b) n.
Proof.
  revert v; induction n as [|n IH]; intros v Hp Hl Hi; simpl.
  - rewrite !app_nil_r. repeat split; reflexivity.
  - unfold run in IH. simpl in IH.
    assert (E : paint pt v b =
      {| status := status v; items := items v; images := images v; has_finished := false;
         ready_handlers := ready_handlers v ++ [b]; in_flight := in_flight v;
         live_urls := live_urls v; next_url := next_url v;
         log := log v ++ [EConnectReady b] |}).
    { unfold paint. rewrite Hi. unfold load_image. rewrite Hl, Hp. reflexivity. }
    unfold run. simpl. rewrite E.
    assert (Hl' : has_images_loaded
      {| status := status v; items := items v; images := images v; has_finished := false;
         ready_handlers := ready_handlers v ++ [b]; in_flight := in_flight v;
         live_urls := live_urls v; next_url := next_url v;
         log := log v ++ [EConnectReady b] |} = false) by exact Hl.
    destruct (IH {| status := status v; items := items v; images := images v; has_finished := false;
                    ready_handlers := ready_handlers v ++ [b]; in_flight := in_flight v;
                    live_urls := live_urls v; next_url := next_url v;
                    log := log v ++ [EConnectReady b] |} Hp Hl' Hi) as [H1 [H2 [H3 H4]]].
    rewrite H1, H2, H3, H4. simpl. rewrite <- !app_assoc. repeat split; reflexivity.
Qed.

Lemma fold_load_image_ready (pt : nat -> option nat) (hs : list nat) (w : View) :
  status w = Ready -> has_images_loaded w = false ->
  (forall b, In b hs -> pt b <> None) ->
  let w' := fold_left (load_image pt) hs w in
  map pd_box (in_flight w') = map pd_box (in_flight w) ++ hs /\
  status w' = Ready /\ items w' = items w /\ images w' = images w.
Proof.
  revert w; induction hs as [|b r IH]; intros w Hs Hl Hpt; simpl.
  - rewrite app_nil_r. repeat split; [exact Hs].
  - destruct (pt b) as [svg|] eqn:Eb; [|exfalso; exact (Hpt b (or_introl eq_refl) Eb)].
    assert (E : load_image pt w b =
      {| status := status w; items := items w; images := images w;
         has_finished := has_finished w; ready_handlers := ready_handlers w;
         in_flight := in_flight w ++ [mkPending b (next_url w) svg];
         live_urls := live_urls w ++ [next_url w]; next_url := S (next_url w);
         log := log w ++ [ECreateURL (next_url w)] |}).
    { unfold load_image. rewrite Hl, Hs. simpl. rewrite Bool.andb_false_r. rewrite Eb. reflexivity. }
    rewrite E.
    destruct (IH {| status := status w; items := items w; images := images w;
                    has_finished := has_finished w; ready_handlers := ready_handlers w;
                    in_flight := in_flight w ++ [mkPending b (next_url w) svg];
                    live_urls := live_urls w ++ [next_url w]; next_url := S (next_url w);
                    log := log w ++ [ECreateURL (next_url w)] |}
                 Hs Hl (fun b' H => Hpt b' (or_intror H))) as [H1 [H2 [H3 H4]]].
    rewrite H1, H2, H3, H4. simpl. rewrite map_app, <- app_assoc. repeat split; reflexivity.
Qed.

(** When the provider becomes ready, every connected handler runs
    [load_image] for its box: while an image is missing and each box
    typesets, one conversion starts per subscription, in subscription
    order, duplicates included. *)
Theorem provider_ready_converts_per_subscription (pt : nat -> option nat)
    (st : nat -> option jsstring) (pcl : option jsstring -> bool) (v : View) :
  has_images_loaded v = false ->
  (forall b, In b (ready_handlers v) -> pt b <> None) ->
  let v' := step pt st pcl v (ProviderSettles Ready) in
  map pd_box (in_flight v') = map pd_box (in_flight v) ++ ready_handlers v /\
  status v' = Ready /\ images v' = images v.
Proof.
  intros Hl Hpt. simpl.
  destruct (fold_load_image_ready pt (ready_handlers v)
              {| status := Ready; items := items v; images := images v;
                 has_finished := has_finished v; ready_handlers := ready_handlers v;
                 in_flight := in_flight v; live_urls := live_urls v;
                 next_url := next_url v; log := log v |} eq_refl Hl Hpt)
    as [H1 [H2 [_ H4]]].
  split; [exact H1|]. split; [exact H2|exact H4].
Qed.

(** A decoded image is stored on its box whether or not the box is still
    an item of the current container (a text change replaces the
    container, not the pending decodes), and whether or not
    [get_image_properties] raises afterwards: the URL is revoked, the image
    set, and the items left as they are; then a layout is requested (and
    completion possibly signalled) when [get_image_properties] returns, and
    the promise rejects, with no layout request, when it raises. *)
Theorem resume_load_stores_image_unconditionally (st : nat -> option jsstring)
    (pcl : option jsstring -> bool) (v : View) (p : pending) (img : nat) :
  let v' := resume_load st pcl v p (Decoded img) in
  image_of v' (pd_box p) = Some img /\ items v' = items v /\
  exists tail, log v' = log v ++ [ERevokeURL (pd_url p); ESetImage (pd_box p) img] ++ tail /\
               (if get_image_properties_returns st pcl (pd_svg p)
                then tail = [ERequestLayout] \/ tail = [ERequestLayout; ENotifyFinished]
                else tail = [ERejected (pd_box p)]).
Proof.
  unfold resume_load. cbv zeta.
  destruct (get_image_properties_returns st pcl (pd_svg p)).
  - match goal with |- context [if has_images_loaded ?w then _ else _] => destruct (has_images_loaded w) end;
      simpl; (split; [unfold image_of; simpl; rewrite Nat.eqb_refl; reflexivity|]);
      (split; [reflexivity|]).
    + exists [ERequestLayout; ENotifyFinished].
      split; [rewrite <- !app_assoc; reflexivity|right; reflexivity].
    + exists [ERequestLayout]. split; [rewrite <- !app_assoc; reflexivity|left; reflexivity].
  - simpl. split; [unfold image_of; simpl; rewrite Nat.eqb_refl; reflexivity|].
    split; [reflexivity|].
    exists [ERejected (pd_box p)]. split; [rewrite <- !app_assoc; reflexivity|reflexivity].
Qed.

(** A successful decode completes the view exactly when
    [get_image_properties] returns and every other image box of the current
    items already has its image: then [_has_finished] is set and completion
    signalled once; otherwise the flag and the signals are unchanged. *)
Theorem resume_load_completion (st : nat -> option jsstring) (pcl : option jsstring -> bool)
    (v : View) (p : pending) (img : nat) :
  let v' := resume_load st pcl v p (Decoded img) in
  let others := forallb (fun it => match it with
                                   | PText => true
                                   | PImage b => (Nat.eqb b (pd_box p) ||
                                                  match image_of v b with Some _ => true | None => false end)%bool
                                   end) (items v) in
  let ok := get_image_properties_returns st pcl (pd_svg p) in
  has_finished v' = (if (ok && others)%bool then true else has_finished v) /\
  count_notify (log v') = (count_notify (log v) + if (ok && others)%bool then 1 else 0)%nat.
Proof.
  intros v' others ok. unfold v', ok, resume_load. cbv zeta.
  destruct (get_image_properties_returns st pcl (pd_svg p)).
  2:{ simpl. split; [reflexivity|].
      rewrite !PipelineFacts.count_notify_app; unfold count_notify; simpl; lia. }
  match goal with |- context [has_images_loaded ?w0] => set (w := w0) end.
  assert (Hi : forall b, image_of w b =
                 if Nat.eqb b (pd_box p) then Some img else image_of v b).
  { intros b. unfold image_of, w. simpl. rewrite Nat.eqb_sym.
    destruct (Nat.eqb b (pd_box p)); reflexivity. }
  assert (E : has_images_loaded w = others).
  { unfold has_images_loaded, others. change (items w) with (items v).
    clearbody w. clear others v'.
    induction (items v) as [|[|b] r IH]; simpl; [reflexivity|exact IH|].
    rewrite IH, Hi. destruct (Nat.eqb b (pd_box p)); reflexivity. }
  rewrite E. destruct others; simpl; (split; [reflexivity|]);
    rewrite !PipelineFacts.count_notify_app; unfold count_notify;
    simpl; lia.
Qed.

End PipelineProps.

(** ** [BaseExpo] visuals and [max_v_align] *)

Lemma set_visuals_at_scale (sv : Services) (b : gbox) (s : option Q) (v : TextVisuals) (b' : gbox) :
  set_visuals_at sv b s v = Some b' ->
  c_font_size_scale (common_of b') =
    match s with Some q => q | None => c_font_size_scale (common_of b) end.
Proof.
  destruct b as [c t | c t i | c base expo | c items]; simpl; intros H.
  - injection H as <-. destruct s; reflexivity.
  - injection H as <-. destruct s; reflexivity.
  - destruct (set_visuals_at sv base None v); [|discriminate].
    destruct (set_visuals_at sv expo (Some (7 # 10)) v); [|discriminate].
    injection H as <-. destruct s; reflexivity.
  - destruct (all_some _); [|discriminate].
    destruct (max_by _ _); [|discriminate].
    injection H as <-. destruct s; reflexivity.
Qed.

(** [BaseExpo]'s [visuals] setter shrinks the exponent: whatever its
    previous [font_size_scale], the exponent is restyled at scale [0.7],
    while the base keeps its own scale and the pair keeps the base's
    inferred text height. *)
Theorem BaseExpo_visuals_shrinks_exponent (sv : Services) (c : Common) (base expo : gbox)
    (v : TextVisuals) (b' : gbox) :
  set_visuals sv (BaseExpo c base expo) v = Some b' ->
  match b' with
  | BaseExpo c' base' expo' =>
      c' = c /\
      c_font_size_scale (common_of base') = c_font_size_scale (common_of base) /\
      c_font_size_scale (common_of expo') = 7 # 10 /\
      infer_text_height b' = infer_text_height base
  | _ => False
  end.
Proof.
  unfold set_visuals. simpl.
  destruct (set_visuals_at sv base None v) as [base'|] eqn:E1; [|discriminate].
  destruct (set_visuals_at sv expo (Some (7 # 10)) v) as [expo'|] eqn:E2; [|discriminate].
  intros H. injection H as <-.
  split; [reflexivity|]. split; [exact (set_visuals_at_scale _ _ _ _ _ E1)|].
  split; [exact (set_visuals_at_scale _ _ _ _ _ E2)|].
  simpl. exact (set_visuals_at_infer _ _ _ _ _ E1).
Qed.

Lemma Qabs_0 : Qabs 0 = 0.
Proof. reflexivity. Qed.

Lemma max_v_align_fold (values : list Q) (acc : Q * Q) :
  fst acc = Qabs (snd acc) ->
  let r := fold_left (fun acc value =>
                        if Qltb (fst acc) (Qabs value) then (Qabs value, value) else acc)
                     values acc in
  fst r = Qabs (snd r) /\ Qabs (snd acc) <= Qabs (snd r) /\
  (forall x, In x values -> Qabs x <= Qabs (snd r)) /\
  (snd r = snd acc \/ In (snd r) values).
Proof.
  revert acc; induction values as [|x r IH]; intros acc H; simpl.
  - split; [exact H|]. split; [apply Qle_refl|]. split; [intros _ []|left; reflexivity].
  - destruct (Qltb (fst acc) (Qabs x)) eqn:E.
    + destruct (IH (Qabs x, x) eq_refl) as [H1 [H2 [H3 H4]]]. simpl in *.
      split; [exact H1|].
      assert (Hlt : Qabs (snd acc) <= Qabs x).
      { rewrite <- H. unfold Qltb in E. apply negb_true_iff in E.
        apply Qlt_le_weak, Qnot_le_lt. rewrite <- Qle_bool_iff. congruence. }
      split; [apply (Qle_trans _ _ _ Hlt H2)|].
      split.
      * intros y [<-|Hy]; [exact H2|exact (H3 y Hy)].
      * right. destruct H4 as [H4|H4]; [left; symmetry; exact H4|right; exact H4].
    + destruct (IH acc H) as [H1 [H2 [H3 H4]]].
      split; [exact H1|]. split; [exact H2|]. split.
      * intros y [<-|Hy]; [|exact (H3 y Hy)].
        apply Qltb_false in E. rewrite H in E. exact (Qle_trans _ _ _ E H2).
      * destruct H4 as [H4|H4]; [left; exact H4|right; right; exact H4].
Qed.

(** [GraphicsContainer.max_v_align] is the signed [v_align] of largest
    magnitude among the container's [v_aligns] (the first one among equal
    magnitudes), or [0] when there is none. *)
Theorem max_v_align_largest (items : list gbox) :
  (forall x, In x (v_aligns items) -> Qabs x <= Qabs (max_v_align items)) /\
  In (max_v_align items) (0 :: v_aligns items).
Proof.
  unfold max_v_align.
  destruct (max_v_align_fold (map item_v_align (filter is_image_box items)) (0, 0) eq_refl)
    as [_ [H2 [H3 H4]]].
  split.
  - intros x Hx. unfold v_aligns in Hx. apply in_map_iff in Hx. destruct Hx as [b [<- Hb]].
    destruct (is_image_box b) eqn:Eb.
    + apply H3. apply in_map. apply filter_In. split; assumption.
    + exact H2.
  - destruct H4 as [H4|H4]; [left; symmetry; exact H4|right].
    apply in_map_iff in H4. destruct H4 as [b [Hv Hb]]. apply filter_In in Hb.
    destruct Hb as [Hb Ei]. rewrite <- Hv. unfold v_aligns. apply in_map_iff.
    exists b. split; [rewrite Ei; reflexivity|exact Hb].
Qed.

(** ** The [style] rules of [get_image_properties] *)

Lemma split_units_nonempty (sep : N) (s : jsstring) : split_units sep s <> [].
Proof.
  destruct s as [|c r]; simpl; [discriminate|].
  destruct (split_units sep r); [discriminate|]. destruct (N.eqb c sep); discriminate.
Qed.

Lemma split_units_no_sep (sep : N) (s : jsstring) : ~ In sep s -> split_units sep s = [s].
Proof.
  induction s as [|c r IH]; intros H; simpl; [reflexivity|].
  rewrite IH by (intros Hr; apply H; right; exact Hr).
  destruct (N.eqb c sep) eqn:E; [|reflexivity].
  apply N.eqb_eq in E. exfalso. apply H. left. exact E.
Qed.

Lemma split_units_sep (sep : N) (s : jsstring) :
  In sep s -> (2 <= List.length (split_units sep s))%nat.
Proof.
  induction s as [|c r IH]; intros H; [destruct H|]. simpl.
  pose proof (split_units_nonempty sep r) as Hn.
  destruct (split_units sep r) as [|l ls] eqn:Er; [congruence|].
  destruct (N.eqb c sep) eqn:E; [simpl; lia|].
  destruct H as [H|H]; [subst c; rewrite N.eqb_refl in E; discriminate|].
  specialize (IH H). simpl in *. exact IH.
Qed.

Lemma split_units_app (sep : N) (a b : jsstring) :
  split_units sep (a ++ sep :: b) = split_units sep a ++ split_units sep b.
Proof.
  induction a as [|c r IH]; simpl.
  - pose proof (split_units_nonempty sep b) as Hn.
    destruct (split_units sep b); [congruence|]. rewrite N.eqb_refl. reflexivity.
  - rewrite IH. pose proof (split_units_nonempty sep r) as Hn.
    destruct (split_units sep r) as [|l ls]; [congruence|].
    destruct (N.eqb c sep); reflexivity.
Qed.

Lemma add_rule_none (m : rules_map) (d : jsstring) :
  add_rule (Some m) d = None <-> d <> [] /\ ~ In (cu ":") d.
Proof.
  unfold add_rule. split.
  - destruct (In_dec N.eq_dec (cu ":") d) as [Hin|Hin].
    + pose proof (split_units_sep _ _ Hin) as L.
      destruct (split_units (cu ":") d) as [|rule [|value rest]]; simpl in L; try lia.
      destruct rule; discriminate.
    + rewrite (split_units_no_sep _ _ Hin). intros H. split; [|exact Hin].
      intros ->. discriminate.
  - intros [Hne Hin]. rewrite (split_units_no_sep _ _ Hin).
    destruct d; [congruence|reflexivity].
Qed.

Lemma fold_add_rule_none (ds : list jsstring) : fold_left add_rule ds None = None.
Proof. induction ds; simpl; [reflexivity|exact IHds]. Qed.

(** The [style] loop of [get_image_properties] raises exactly when some
    [;]-separated declaration is non-empty and has no [:] ([value] is then
    [undefined] and [value.trim()] throws); empty declarations, as left by
    a trailing [;], are skipped. *)
Theorem svg_style_rules_raises_iff (style : jsstring) :
  svg_style_rules style = None <->
  exists d, In d (split_units (cu ";") style) /\ d <> [] /\ ~ In (cu ":") d.
Proof.
  unfold svg_style_rules. generalize (@nil (jsstring * jsstring)) as m.
  induction (split_units (cu ";") style) as [|d ds IH]; intros m; cbn [fold_left].
  - split; [discriminate|]. intros [d [[] _]].
  - destruct (add_rule (Some m) d) as [m'|] eqn:E.
    + rewrite IH. split.
      * intros [d' [Hd' H]]. exists d'. split; [right; exact Hd'|exact H].
      * intros [d' [[Heq|Hd'] H]].
        -- subst d'. exfalso.
           assert (H0 : add_rule (Some m) d = None) by (apply add_rule_none; exact H).
           change (add_rule (Some m) d = Some m') in E. rewrite H0 in E. discriminate.
        -- exists d'. split; [exact Hd'|exact H].
    + rewrite fold_add_rule_none. split; [|reflexivity].
      intros _. exists d. split; [left; reflexivity|]. apply (add_rule_none m d). exact E.
Qed.

Lemma list_eqb_refl (a : jsstring) : list_eqb a a = true.
Proof. induction a; simpl; [reflexivity|]. rewrite N.eqb_refl. exact IHa. Qed.

(** A declaration appended to a [style] that parses overrides any earlier
    one of the same rule: the rule's (trimmed) value is the last one
    declared. *)
Theorem svg_style_rules_last_declaration_wins (style k value : jsstring) (m : rules_map) :
  svg_style_rules style = Some m -> k <> [] ->
  ~ In (cu ":") k -> ~ In (cu ";") k -> ~ In (cu ":") value -> ~ In (cu ";") value ->
  exists m', svg_style_rules (style ++ cu ";" :: k ++ cu ":" :: value) = Some m' /\
             map_get m' (trim k) = Some (trim value).
Proof.
  intros Hs Hk Hk1 Hk2 Hv1 Hv2.
  unfold svg_style_rules in *.
  assert (Hd : ~ In (cu ";") (k ++ cu ":" :: value)).
  { intros H. apply in_app_or in H. destruct H as [H|[H|H]]; [exact (Hk2 H)|discriminate|exact (Hv2 H)]. }
  rewrite split_units_app, (split_units_no_sep _ _ Hd), fold_left_app, Hs.
  cbn [fold_left]. unfold add_rule.
  rewrite split_units_app, (split_units_no_sep _ _ Hk1), (split_units_no_sep _ _ Hv1). simpl.
  destruct k as [|k0 ks]; [congruence|].
  eexists; split; [reflexivity|].
  unfold map_get, map_set. simpl. rewrite list_eqb_refl. reflexivity.
Qed.

(** ** Instances of the properties above *)


Lemma parse_math_parts_items_witness :
  In (new_TextBox (js "a")) (parse_math_parts true [mkTexPart 1 4 (js "x")] (js "a$x$")) /\
  ((exists t, t <> [] /\ new_TextBox (js "a") = new_TextBox t) \/
   (exists t, new_TextBox (js "a") = new_ImageTextBox t)).
Proof.
  assert (H : In (new_TextBox (js "a")) (parse_math_parts true [mkTexPart 1 4 (js "x")] (js "a$x$")))
    by (left; reflexivity).
  split; [exact H|].
  exact (parse_math_parts_items true [mkTexPart 1 4 (js "x")] (js "a$x$") _ H).
Defined.

Lemma ImageTextBox_size_and_anchor_witness :
  c_width default_common = None /\ c_height default_common = None /\
  let m := font_metrics sample_services (font (new_text_fields (js "x"))) in
  let s := gbox__size sample_services
             (ImageTextBox default_common (new_text_fields (js "x")) (Some (0%nat, mkImageProperties 4 3 1))) in
  let p := c_position default_common in
  width s == ip_width (mkImageProperties 4 3 1) /\
  height s == Qmax (ip_height (mkImageProperties 4 3 1)) (fm_height m) /\
  snd (ImageTextBox__computed_position default_common (Some (0%nat, mkImageProperties 4 3 1)) s m) =
    sy p - match default (c_y_anchor default_common) (y_anchor p) with
           | YNum q => q * height s
           | YTop => 0
           | YBottom => height s
           | YCenter | YBaseline => (1 # 2) * height s
           end.
Proof.
  split; [reflexivity|]. split; [reflexivity|].
  apply (ImageTextBox_size_and_anchor sample_services default_common (new_text_fields (js "x"))
           0 (mkImageProperties 4 3 1)); reflexivity.
Defined.

Lemma TextBox_paint_alignment_witness :
  c_align (sample_common_align ARight) <> AJustify /\
  let '(s, _, _) := TextBox_paint_geometry sample_services (sample_common_align ARight)
                      (mkTextFields (js "ab" ++ [cu_newline] ++ js "c") "" "A" 1 XLeft) in
  let x := fst (TextBox__computed_position (sample_common_align ARight)
                  (mkTextFields (js "ab" ++ [cu_newline] ++ js "c") "" "A" 1 XLeft) s
                  (font_metrics sample_services (font (mkTextFields (js "ab" ++ [cu_newline] ++ js "c") "" "A" 1 XLeft)))
                  (List.length (split_lines (text (mkTextFields (js "ab" ++ [cu_newline] ++ js "c") "" "A" 1 XLeft))))) in
  forall l xi yi, In (OFillText l xi yi)
                     (TextBox_paint sample_services (sample_common_align ARight)
                        (mkTextFields (js "ab" ++ [cu_newline] ++ js "c") "" "A" 1 XLeft)) ->
  match line_align (sample_common_align ARight) (mkTextFields (js "ab" ++ [cu_newline] ++ js "c") "" "A" 1 XLeft) with
  | XRight => xi + text_width sample_services l (font (mkTextFields (js "ab" ++ [cu_newline] ++ js "c") "" "A" 1 XLeft))
              == x + width s
  | XCenter => xi + (1 # 2) * text_width sample_services l (font (mkTextFields (js "ab" ++ [cu_newline] ++ js "c") "" "A" 1 XLeft))
               == x + (1 # 2) * width s
  | _ => xi == x
  end.
Proof.
  split; [discriminate|].
  apply (TextBox_paint_alignment sample_services (sample_common_align ARight)
           (mkTextFields (js "ab" ++ [cu_newline] ++ js "c") "" "A" 1 XLeft)).
  discriminate.
Defined.

Lemma justify_line_fills_width_witness :
  (2 <= List.length (split_units cu_space (js "ab cd")))%nat /\
  hd OLoadImage (justify_line sample_services "A" 0 0 10 (js "ab cd")) =
    OFillText (hd [] (split_units cu_space (js "ab cd"))) 0 0 /\
  exists xl, last (justify_line sample_services "A" 0 0 10 (js "ab cd")) OLoadImage =
               OFillText (last (split_units cu_space (js "ab cd")) []) xl 0 /\
             xl + text_width sample_services (last (split_units cu_space (js "ab cd")) []) "A" == 0 + 10.
Proof.
  assert (H : (2 <= List.length (split_units cu_space (js "ab cd")))%nat) by (simpl; lia).
  split; [exact H|].
  exact (justify_line_fills_width sample_services "A" 0 0 10 (js "ab cd") H).
Defined.

Lemma paints_while_loading_subscribe_each_time_witness :
  Pipeline.is_pending (Pipeline.status (sample_view Pipeline.Loading)) = true /\
  Pipeline.has_images_loaded (sample_view Pipeline.Loading) = false /\
  Pipeline.image_of (sample_view Pipeline.Loading) 0 = None /\
  let v' := Pipeline.run Pipeline.ascii_process_text sample_svg_style sample_parse_css_length_returns
              (sample_view Pipeline.Loading) (repeat (Pipeline.Paint 0) 2) in
  Pipeline.ready_handlers v' = Pipeline.ready_handlers (sample_view Pipeline.Loading) ++ repeat 0%nat 2 /\
  Pipeline.in_flight v' = Pipeline.in_flight (sample_view Pipeline.Loading) /\
  Pipeline.images v' = Pipeline.images (sample_view Pipeline.Loading) /\
  Pipeline.log v' = Pipeline.log (sample_view Pipeline.Loading) ++ repeat (Pipeline.EConnectReady 0) 2.
Proof.
  split; [reflexivity|]. split; [reflexivity|]. split; [reflexivity|].
  apply (PipelineProps.paints_while_loading_subscribe_each_time Pipeline.ascii_process_text
           sample_svg_style sample_parse_css_length_returns (sample_view Pipeline.Loading) 0 2);
    reflexivity.
Defined.

Lemma provider_ready_converts_per_subscription_witness :
  let v := Pipeline.mkView Pipeline.Loading [Pipeline.PImage 0] [] false [0%nat; 0%nat] [] [] 0 [] in
  Pipeline.has_images_loaded v = false /\
  (forall b, In b (Pipeline.ready_handlers v) -> (fun _ : nat => Some 7%nat) b <> None) /\
  let v' := Pipeline.step (fun _ => Some 7%nat) sample_svg_style sample_parse_css_length_returns v
              (Pipeline.ProviderSettles Pipeline.Ready) in
  map Pipeline.pd_box (Pipeline.in_flight v') = map Pipeline.pd_box (Pipeline.in_flight v) ++ Pipeline.ready_handlers v /\
  Pipeline.status v' = Pipeline.Ready /\ Pipeline.images v' = Pipeline.images v.
Proof.
  intros v.
  assert (H1 : Pipeline.has_images_loaded v = false) by reflexivity.
  assert (H2 : forall b, In b (Pipeline.ready_handlers v) -> (fun _ : nat => Some 7%nat) b <> None)
    by (intros b _; discriminate).
  split; [exact H1|]. split; [exact H2|].
  exact (PipelineProps.provider_ready_converts_per_subscription (fun _ => Some 7%nat) sample_svg_style
           sample_parse_css_length_returns v H1 H2).
Defined.

Lemma BaseExpo_visuals_shrinks_exponent_witness :
  exists b',
    set_visuals sample_services
      (BaseExpo default_common (sample_text_box "x" "A") (sample_text_box "2" "A")) sample_visuals = Some b' /\
    match b' with
    | BaseExpo c' base' expo' =>
        c' = default_common /\
        c_font_size_scale (common_of base') = c_font_size_scale (common_of (sample_text_box "x" "A")) /\
        c_font_size_scale (common_of expo') = 7 # 10 /\
        infer_text_height b' = infer_text_height (sample_text_box "x" "A")
    | _ => False
    end.
Proof.
  eexists. split; [reflexivity|].
  apply (BaseExpo_visuals_shrinks_exponent sample_services default_common
           (sample_text_box "x" "A") (sample_text_box "2" "A") sample_visuals).
  reflexivity.
Defined.

Lemma svg_style_rules_last_declaration_wins_witness :
  exists m,
    svg_style_rules (js "vertical-align: 1px; color: red") = Some m /\
    exists m', svg_style_rules (js "vertical-align: 1px; color: red" ++ cu ";" ::
                                js "vertical-align" ++ cu ":" :: js " -0.5ex") = Some m' /\
               map_get m' (trim (js "vertical-align")) = Some (trim (js " -0.5ex")).
Proof.
  eexists. split; [reflexivity|].
  eapply (svg_style_rules_last_declaration_wins (js "vertical-align: 1px; color: red")
           (js "vertical-align") (js " -0.5ex")).
  - reflexivity.
  - discriminate.
  - unfold cu; simpl; not_in_tac.
  - unfold cu; simpl; not_in_tac.
  - unfold cu; simpl; not_in_tac.
  - unfold cu; simpl; not_in_tac.
Defined.
